(** * Flight-control core of the camera drone (src/error_ros.cpp,
      src/simplecanny.cpp)

    A shallow embedding of the error-calculator node: the PID control law
    [PID_controller::compute_output], the altitude ramp
    [increase_altitude::run], the tracking callback [autonomy::callback]
    and the velocity publisher [move_drone].

    Numbers.  The program computes on C++ [float] and [double].  A value is
    modelled as an exact rational or one of the three IEEE-754 special
    values (+infinity, -infinity, not-a-number).  Arithmetic on finite
    values is exact: rounding and overflow are not modelled.  Special
    values are modelled because the control law divides by the elapsed time
    and compares the result: a zero divisor yields an infinity or a NaN, and
    every ordered comparison with a NaN is false.  Zeros carry no sign; a
    zero divisor behaves as +0, which is what the difference of two equal
    time stamps is.

    Rounding.  Where a property depends on the rounding of [float], the
    control law is embedded a second time, in [PID32], on binary32 with
    the operations of the standard library's [SpecFloat]: every sum,
    product and quotient is rounded to nearest, and overflows to an
    infinity.

    The clock.  [ros::Time::now().toSec()] is an input of every call of
    [compute_output]; it is passed explicitly as a finite rational [now].

    Publishing.  A publisher is modelled by the list of messages sent on
    it, oldest first.

    The node.  [initialize], [ready], [tracking] and [main] are modelled
    by the events they cause, in program order, over a script of the
    telemetry and image messages that arrive.  Of src/simplecanny.cpp the
    part of [imageCb] that follows the face detection is modelled, on
    32-bit integers.

    Not modelled: [sigint_handler], which runs in signal context and
    preempts the code below at an arbitrary point, the ROS transport,
    and the OpenCV face detection. *)

From Stdlib Require Import QArith ZArith List Bool Lia Lqa.
From Stdlib Require SpecFloat.
Import ListNotations.

Local Open Scope Q_scope.

(* ================================================================== *)
(** ** Floating-point values with IEEE special values                   *)
(* ================================================================== *)

Module IEEE.

Inductive float : Type :=
| Fin (q : Q)
| PInf
| NInf
| NaN.

Definition Qlt_bool (x y : Q) : bool := negb (Qle_bool y x).

Definition is_finite (x : float) : bool :=
  match x with Fin _ => true | _ => false end.

Definition is_nan (x : float) : bool :=
  match x with NaN => true | _ => false end.

(** The infinity with the sign of the nonzero rational [a]. *)
Definition inf_of_sign (a : Q) : float :=
  if Qlt_bool 0 a then PInf else NInf.

Definition fneg (x : float) : float :=
  match x with
  | Fin q => Fin (- q)
  | PInf => NInf
  | NInf => PInf
  | NaN => NaN
  end.

Definition fadd (x y : float) : float :=
  match x, y with
  | NaN, _ | _, NaN => NaN
  | Fin a, Fin b => Fin (a + b)
  | PInf, NInf | NInf, PInf => NaN
  | PInf, _ | _, PInf => PInf
  | NInf, _ | _, NInf => NInf
  end.

Definition fsub (x y : float) : float := fadd x (fneg y).

Definition fmul (x y : float) : float :=
  match x, y with
  | NaN, _ | _, NaN => NaN
  | Fin a, Fin b => Fin (a * b)
  | Fin a, PInf | PInf, Fin a =>
      if Qeq_bool a 0 then NaN else inf_of_sign a
  | Fin a, NInf | NInf, Fin a =>
      if Qeq_bool a 0 then NaN else inf_of_sign (- a)
  | PInf, PInf | NInf, NInf => PInf
  | PInf, NInf | NInf, PInf => NInf
  end.

(** Division.  A finite nonzero value over zero is an infinity, zero over
    zero and infinity over infinity are NaN. *)
Definition fdiv (x y : float) : float :=
  match x, y with
  | NaN, _ | _, NaN => NaN
  | Fin a, Fin b =>
      if Qeq_bool b 0
      then (if Qeq_bool a 0 then NaN else inf_of_sign a)
      else Fin (a / b)
  | Fin _, PInf | Fin _, NInf => Fin 0
  | PInf, Fin b => if Qle_bool 0 b then PInf else NInf
  | NInf, Fin b => if Qle_bool 0 b then NInf else PInf
  | PInf, PInf | PInf, NInf | NInf, PInf | NInf, NInf => NaN
  end.

(** [x > y]; false as soon as one side is NaN. *)
Definition fgt (x y : float) : bool :=
  match x, y with
  | NaN, _ | _, NaN => false
  | Fin a, Fin b => Qlt_bool b a
  | PInf, PInf => false
  | PInf, _ => true
  | _, PInf => false
  | NInf, _ => false
  | Fin _, NInf => true
  end.

(** [x < y]. *)
Definition flt (x y : float) : bool := fgt y x.

(** Equality of values up to the equality of rationals. *)
Definition feq (x y : float) : Prop :=
  match x, y with
  | Fin a, Fin b => a == b
  | PInf, PInf | NInf, NInf | NaN, NaN => True
  | _, _ => False
  end.

(** [lo <= x <= hi] for finite [x]; no special value lies in a range. *)
Definition in_range (lo hi : Q) (x : float) : Prop :=
  match x with
  | Fin q => lo <= q /\ q <= hi
  | _ => False
  end.

End IEEE.
Import IEEE.

(* ================================================================== *)
(** ** Outbound messages                                                *)
(* ================================================================== *)

(** geometry_msgs::Twist, the velocity command. *)
Record Twist : Type := {
  linear_x : float;
  linear_y : float;
  linear_z : float;
  angular_x : float;
  angular_y : float;
  angular_z : float
}.

(** [move_drone]: fills a Twist and publishes it on [move_drone_pub]. *)
Definition move_drone (move_drone_pub : list Twist)
    (velocity_x velocity_z yaw_speed : float) : list Twist :=
  let msg := {| linear_x := velocity_x;
                linear_y := Fin 0;
                linear_z := velocity_z;
                angular_x := Fin 0;
                angular_y := Fin 0;
                angular_z := yaw_speed |} in
  move_drone_pub ++ [msg].

(* ================================================================== *)
(** ** class PID_controller                                             *)
(* ================================================================== *)

Module PID.

(** [float prev_error[3]]: three slots, addressed by a constant index. *)
Inductive index : Type := I0 | I1 | I2.

Record array3 : Type := { slot0 : float; slot1 : float; slot2 : float }.

Definition aget (a : array3) (i : index) : float :=
  match i with I0 => slot0 a | I1 => slot1 a | I2 => slot2 a end.

Definition aset (a : array3) (i : index) (v : float) : array3 :=
  match i with
  | I0 => {| slot0 := v; slot1 := slot1 a; slot2 := slot2 a |}
  | I1 => {| slot0 := slot0 a; slot1 := v; slot2 := slot2 a |}
  | I2 => {| slot0 := slot0 a; slot1 := slot1 a; slot2 := v |}
  end.

Record PID_controller : Type := {
  time_stamp_prev : Q;
  integral : float;
  SP : float;
  kp : float;
  ki : float;
  kd : float;
  outMax : float;
  outMin : float;
  prev_error : array3;
  output_slew_rate : float;
  prev_output : float;
  offset : float
}.

(** The constructor.  It reads no clock. *)
Definition new (SP_in slew_rate_in outMax_in outMin_in
                kp_in ki_in kd_in offset_in : float) : PID_controller :=
  {| time_stamp_prev := 0;
     integral := Fin 0;
     kp := kp_in;
     ki := ki_in;
     kd := kd_in;
     SP := SP_in;
     outMax := outMax_in;
     outMin := outMin_in;
     prev_error := {| slot0 := Fin 0; slot1 := Fin 0; slot2 := Fin 0 |};
     output_slew_rate := slew_rate_in;
     prev_output := Fin 0;
     offset := offset_in |}.

(** [dt = time_stamp_curr - time_stamp_prev]. *)
Definition elapsed (c : PID_controller) (time_stamp_curr : Q) : float :=
  Fin (time_stamp_curr - time_stamp_prev c).

(** [((error + 3*prev_error[2] - 3*prev_error[1] - prev_error[0])/6)/dt]. *)
Definition derivative_term (c : PID_controller) (error dt : float) : float :=
  let pe := prev_error c in
  fdiv
    (fdiv
       (fsub
          (fsub (fadd error (fmul (Fin 3) (aget pe I2)))
                (fmul (Fin 3) (aget pe I1)))
          (aget pe I0))
       (Fin 6))
    dt.

(** The deadband test and the weighted sum. *)
Definition pid_sum (c : PID_controller)
    (error integral' derivative : float) : float :=
  if fgt error (offset c) || flt error (fmul (offset c) (Fin (-1)))
  then fadd (fadd (fmul (kp c) error) (fmul (ki c) integral'))
            (fmul (kd c) derivative)
  else Fin 0.

(** The slew-rate limit against [prev_output]. *)
Definition slew_limit (c : PID_controller) (output : float) : float :=
  if fgt (fsub output (prev_output c)) (output_slew_rate c)
  then fadd (prev_output c) (output_slew_rate c)
  else if flt (fsub output (prev_output c)) (fneg (output_slew_rate c))
       then fsub (prev_output c) (output_slew_rate c)
       else output.

(** The cap to [outMin], [outMax]. *)
Definition cap (c : PID_controller) (output : float) : float :=
  if fgt output (outMax c) then outMax c
  else if flt output (outMin c) then outMin c
       else output.

(** The three assignments that end [compute_output], in source order:
    [prev_error[1] = prev_error[0]; prev_error[2] = prev_error[1];
     prev_error[0] = error]. *)
Definition shift_history (pe : array3) (error : float) : array3 :=
  let pe := aset pe I1 (aget pe I0) in
  let pe := aset pe I2 (aget pe I1) in
  let pe := aset pe I0 error in
  pe.

(** [compute_output(PV)], with the clock reading [time_stamp_curr] as an
    argument; the result is the updated object and the returned value. *)
Definition compute_output (c : PID_controller) (time_stamp_curr : Q)
    (PV : float) : PID_controller * float :=
  let dt := elapsed c time_stamp_curr in
  let error := fsub (SP c) PV in
  let integral' := fadd (integral c) (fmul error dt) in
  let derivative := derivative_term c error dt in
  let output := pid_sum c error integral' derivative in
  let output := slew_limit c output in
  let output := cap c output in
  ({| time_stamp_prev := time_stamp_curr;
      integral := integral';
      SP := SP c;
      kp := kp c;
      ki := ki c;
      kd := kd c;
      outMax := outMax c;
      outMin := outMin c;
      prev_error := shift_history (prev_error c) error;
      output_slew_rate := output_slew_rate c;
      prev_output := output;
      offset := offset c |},
   output).

(** A sequence of calls: each sample is a clock reading and a process
    value.  Returns the final object and the outputs in call order. *)
Fixpoint run_calls (c : PID_controller) (samples : list (Q * float))
  : PID_controller * list float :=
  match samples with
  | [] => (c, [])
  | (now, PV) :: rest =>
      let (c', out) := compute_output c now PV in
      let (c'', outs) := run_calls c' rest in
      (c'', out :: outs)
  end.

(** Every float member holds a finite value. *)
Definition all_finite (c : PID_controller) : bool :=
  forallb is_finite
    [integral c; SP c; kp c; ki c; kd c; outMax c; outMin c;
     slot0 (prev_error c); slot1 (prev_error c); slot2 (prev_error c);
     output_slew_rate c; prev_output c; offset c].

(** Samples with finite process values in which no clock reading equals
    the one before it; [t_prev] is the time stamp the object holds. *)
Fixpoint regular_samples (t_prev : Q) (samples : list (Q * float)) : Prop :=
  match samples with
  | [] => True
  | (now, PV) :: rest =>
      ~ now - t_prev == 0 /\ is_finite PV = true /\ regular_samples now rest
  end.

(** Each output differs from the one before it by at most [s];
    [prev] is the output before the first of [outs]. *)
Fixpoint steps_within (s : Q) (prev : float) (outs : list float) : Prop :=
  match outs with
  | [] => True
  | o :: rest => in_range (- s) s (fsub o prev) /\ steps_within s o rest
  end.

(** The estimator as the specification writes it, for the errors
    [e0], [e1], [e2] of the three calls before and the current [e3]. *)
Definition spec_derivative (e0 e1 e2 e3 dt : Q) : Q :=
  (e3 + 3 * e2 - 3 * e1 - e0) / 6 / dt.

End PID.

(* ================================================================== *)
(** ** class increase_altitude                                          *)
(* ================================================================== *)

Module increase_altitude.

(** The object, together with the state of the subscription
    [navdata_altitude] that [run] holds while it executes. *)
Record state : Type := {
  current_altitude : Z;
  desired_altitude : Z;
  move_drone_pub : list Twist;
  navdata_altitude : bool
}.

Definition new (move_drone_pub_in : list Twist) (altitude : Z) : state :=
  {| current_altitude := 0;
     desired_altitude := altitude;
     move_drone_pub := move_drone_pub_in;
     navdata_altitude := false |}.

(** The command sent by [callback]: [move_drone(pub, 0, 0.6, 0)]. *)
Definition climb : Twist :=
  {| linear_x := Fin 0; linear_y := Fin 0; linear_z := Fin (6 # 10);
     angular_x := Fin 0; angular_y := Fin 0; angular_z := Fin 0 |}.

(** The command sent after the loop: [move_drone(pub, 0, 0, 0)]. *)
Definition stop : Twist :=
  {| linear_x := Fin 0; linear_y := Fin 0; linear_z := Fin 0;
     angular_x := Fin 0; angular_y := Fin 0; angular_z := Fin 0 |}.

(** [callback(msg)], with [altd] the field [msg->altd]. *)
Definition callback (s : state) (altd : Z) : state :=
  {| current_altitude := altd;
     desired_altitude := desired_altitude s;
     move_drone_pub :=
       move_drone (move_drone_pub s) (Fin 0) (Fin (6 # 10)) (Fin 0);
     navdata_altitude := navdata_altitude s |}.

(** One [ros::spinOnce()]: the subscription has a queue of one message,
    so a call delivers the pending Navdata message ([Some altd]) to
    [callback], or finds none ([None]). *)
Definition spinOnce (s : state) (pending : option Z) : state :=
  match pending with
  | Some altd => if navdata_altitude s then callback s altd else s
  | None => s
  end.

(** What a finite script of [spinOnce] results shows of a call of [run]:
    the call has returned, leaving part of the script unread, or the
    script is exhausted with the loop still running. *)
Inductive outcome : Type :=
| Returned (s : state) (rest : list (option Z))
| Spinning (s : state).

(** [while (current_altitude < desired_altitude) ros::spinOnce();]
    over a finite script of what each [spinOnce] finds. *)
Fixpoint spin_loop (s : state) (telemetry : list (option Z)) : outcome :=
  if (current_altitude s <? desired_altitude s)%Z
  then match telemetry with
       | [] => Spinning s
       | pending :: rest => spin_loop (spinOnce s pending) rest
       end
  else Returned s telemetry.

(** [run()]: subscribe, loop, stop command, shut the subscription down. *)
Definition run (s : state) (telemetry : list (option Z)) : outcome :=
  let s := {| current_altitude := current_altitude s;
              desired_altitude := desired_altitude s;
              move_drone_pub := move_drone_pub s;
              navdata_altitude := true |} in
  match spin_loop s telemetry with
  | Spinning s => Spinning s
  | Returned s rest =>
      Returned {| current_altitude := current_altitude s;
                  desired_altitude := desired_altitude s;
                  move_drone_pub :=
                    move_drone (move_drone_pub s) (Fin 0) (Fin 0) (Fin 0);
                  navdata_altitude := false |}
               rest
  end.

(** The altitudes delivered to [callback] by a script. *)
Definition delivered (telemetry : list (option Z)) : list Z :=
  flat_map (fun p => match p with Some a => [a] | None => [] end) telemetry.

(** A [spinOnce] of the script that keeps the loop running: no message,
    or an altitude below [target]. *)
Definition below (target : Z) (pending : option Z) : Prop :=
  match pending with
  | Some altd => (altd < target)%Z
  | None => True
  end.

(** The commands as the specification words them, for the altitudes that
    telemetry delivers: a climb command only for an update that records
    an altitude below the target, the stop command for the first update
    that records an altitude at or above it.  [None] while the target has
    not been reached. *)
Fixpoint spec_commands (target : Z) (altitudes : list Z)
  : option (list Twist) :=
  match altitudes with
  | [] => None
  | altd :: rest =>
      if (altd <? target)%Z
      then match spec_commands target rest with
           | Some cmds => Some (climb :: cmds)
           | None => None
           end
      else Some [stop]
  end.

End increase_altitude.

(* ================================================================== *)
(** ** class autonomy and main                                          *)
(* ================================================================== *)

Module autonomy.

(** ardrone_autonomy::image, the error measurement. *)
Record image : Type := {
  distance : float;
  yaw : float;
  height : float
}.

(** The members that [callback] reads or writes; the node handle, the
    takeoff and ready publishers and the subscriber play no part in it. *)
Record state : Type := {
  move_drone_pub : list Twist;
  takeoff_altitude : Z;
  velocity_PI : PID.PID_controller;
  yaw_PI : PID.PID_controller;
  alt_PI : PID.PID_controller
}.

(** The constructor copies the three controllers. *)
Definition new (alt : Z)
    (velocity_PI_in yaw_PI_in alt_PI_in : PID.PID_controller) : state :=
  {| move_drone_pub := [];
     takeoff_altitude := alt;
     velocity_PI := velocity_PI_in;
     yaw_PI := yaw_PI_in;
     alt_PI := alt_PI_in |}.

(** [callback(image)].  Each [compute_output] reads the clock once:
    [t_x], [t_yaw], [t_z] are the three readings, in call order. *)
Definition callback (a : state) (t_x t_yaw t_z : Q) (img : image) : state :=
  let (velocity_PI', out_x) :=
    PID.compute_output (velocity_PI a) t_x (distance img) in
  let x_velocity := fneg out_x in
  let (yaw_PI', yaw_speed) :=
    PID.compute_output (yaw_PI a) t_yaw (yaw img) in
  let (alt_PI', z_velocity) :=
    PID.compute_output (alt_PI a) t_z (height img) in
  {| move_drone_pub :=
       move_drone (move_drone_pub a) x_velocity z_velocity yaw_speed;
     takeoff_altitude := takeoff_altitude a;
     velocity_PI := velocity_PI';
     yaw_PI := yaw_PI';
     alt_PI := alt_PI' |}.

(** The controllers of [main]; the gains and the offset come from the
    command line ([atof(argv[i])]). *)
Definition main_altitude_PI (kp ki kd offset : float) : PID.PID_controller :=
  PID.new (Fin 0) (Fin (5 # 10)) (Fin (4 # 10)) (Fin (- (4 # 10)))
          kp ki kd offset.

Definition main_velocity_PI (kp ki kd offset : float) : PID.PID_controller :=
  PID.new (Fin 250) (Fin (2 # 10)) (Fin (3 # 10)) (Fin (- (3 # 10)))
          kp ki kd offset.

Definition main_yaw_PI (kp ki kd offset : float) : PID.PID_controller :=
  PID.new (Fin 0) (Fin (2 # 10)) (Fin (5 # 10)) (Fin (- (5 # 10)))
          kp ki kd offset.

(** [autonomy drone(1300, velocity_PI, yaw_PI, altitude_PI)], with
    [argv i] the value [atof(argv[i])]. *)
Definition main_drone (argv : nat -> float) : state :=
  new 1300
      (main_velocity_PI (argv 5%nat) (argv 6%nat) (argv 7%nat) (argv 8%nat))
      (main_yaw_PI (argv 9%nat) (argv 10%nat) (argv 11%nat) (argv 12%nat))
      (main_altitude_PI (argv 1%nat) (argv 2%nat) (argv 3%nat) (argv 4%nat)).

(** The forward velocity of the last command sent. *)
Definition last_x_velocity (a : state) : option float :=
  match rev (move_drone_pub a) with
  | msg :: _ => Some (linear_x msg)
  | [] => None
  end.

(** Command-line gains with a proportional gain of 1 on the forward
    velocity axis and every other value 0. *)
Definition argv_kp_only (i : nat) : float :=
  match i with
  | 5%nat => Fin 1
  | _ => Fin 0
  end.

(** The same gains with an offset of 60 on the forward velocity axis:
    a deadband wider than the error of the tracking scenario. *)
Definition argv_wide_deadband (i : nat) : float :=
  match i with
  | 5%nat => Fin 1
  | 8%nat => Fin 60
  | _ => Fin 0
  end.

(** The measurement of the tracking scenario. *)
Definition target_at_300 : image :=
  {| distance := Fin 300; yaw := Fin 0; height := Fin 0 |}.

End autonomy.

(* ================================================================== *)
(** ** The node: initialize, ready, tracking and main                   *)
(* ================================================================== *)

Module node.

(** What the node does to the outside, in program order. *)
Inductive event : Type :=
| FlatTrim                 (* system("rosservice call /ardrone/flattrim") *)
| Takeoff                  (* takeoff_pub.publish(empty_msg) *)
| Sleep (usec : Z)         (* usleep(usec) *)
| CmdVel (msg : Twist)     (* move_drone_pub.publish(msg) *)
| Ready (data : bool).     (* ready_pub.publish(ready_sig) *)

(** One message of the image_data subscription handed to
    [autonomy::callback], with the three clock readings that the calls of
    [compute_output] make while it is processed. *)
Record delivery : Type := {
  t_x : Q;
  t_yaw : Q;
  t_z : Q;
  data : autonomy.image
}.

(** [tracking()]: subscribe, then [ros::spin()], which hands every
    message to [callback]; [script] is what arrives, in order. *)
Definition tracking (a : autonomy.state) (script : list delivery)
  : autonomy.state :=
  fold_left
    (fun a d => autonomy.callback a (t_x d) (t_yaw d) (t_z d) (data d))
    script a.

(** [initialize()]: flat trim, takeoff, three seconds of sleep, a
    zero-velocity command, then the altitude ramp on the same publisher.
    Returns the events and what the ramp left of the telemetry script,
    or [None] when the ramp is still in its loop. *)
Definition initialize (takeoff_altitude : Z) (telemetry : list (option Z))
  : list event * option (list (option Z)) :=
  let before := [FlatTrim; Takeoff; Sleep (3 * 1000 * 1000)] in
  let move_drone_pub := move_drone [] (Fin 0) (Fin 0) (Fin 0) in
  match increase_altitude.run
          (increase_altitude.new move_drone_pub takeoff_altitude)
          telemetry with
  | increase_altitude.Returned s rest =>
      (before ++ map CmdVel (increase_altitude.move_drone_pub s), Some rest)
  | increase_altitude.Spinning s =>
      (before ++ map CmdVel (increase_altitude.move_drone_pub s), None)
  end.

(** [ready()]. *)
Definition ready : list event := [Ready true].

(** [main], after the controllers are built: [initialize], [ready],
    [tracking].  The statements after [initialize] are reached only when
    the ramp has returned. *)
Definition main (argv : nat -> float) (telemetry : list (option Z))
    (script : list delivery) : list event :=
  let drone := autonomy.main_drone argv in
  match initialize (autonomy.takeoff_altitude drone) telemetry with
  | (events, None) => events
  | (events, Some _) =>
      events ++ ready
             ++ map CmdVel (autonomy.move_drone_pub (tracking drone script))
  end.

(** The velocity commands among the events. *)
Definition commands (events : list event) : list Twist :=
  flat_map (fun e => match e with CmdVel m => [m] | _ => [] end) events.

(** The samples that a script gives to each of the three controllers. *)
Definition samples_x (script : list delivery) : list (Q * float) :=
  map (fun d => (t_x d, autonomy.distance (data d))) script.

Definition samples_yaw (script : list delivery) : list (Q * float) :=
  map (fun d => (t_yaw d, autonomy.yaw (data d))) script.

Definition samples_z (script : list delivery) : list (Q * float) :=
  map (fun d => (t_z d, autonomy.height (data d))) script.

(** The command that [callback] builds from the three outputs. *)
Definition command_of (out_x out_yaw out_z : float) : Twist :=
  {| linear_x := fneg out_x; linear_y := Fin 0; linear_z := out_z;
     angular_x := Fin 0; angular_y := Fin 0; angular_z := out_yaw |}.

(** Componentwise combination of three lists of outputs. *)
Fixpoint zip3 (xs yaws zs : list float) : list Twist :=
  match xs, yaws, zs with
  | x :: xs', w :: yaws', z :: zs' => command_of x w z :: zip3 xs' yaws' zs'
  | _, _, _ => []
  end.

End node.

(* ================================================================== *)
(** ** simplecanny::imageCb (src/simplecanny.cpp)                       *)
(* ================================================================== *)

Module simplecanny.

(** C++ [int]: 32 bits, two's complement; [wrap] brings a result back
    into the range. *)
Definition wrap (z : Z) : Z :=
  ((z + 2147483648) mod 4294967296 - 2147483648)%Z.

Definition iadd (a b : Z) : Z := wrap (a + b).
Definition isub (a b : Z) : Z := wrap (a - b).
Definition imul (a b : Z) : Z := wrap (a * b).
(** Division truncates towards zero. *)
Definition idiv (a b : Z) : Z := wrap (Z.quot a b).

(** cv::Rect. *)
Record Rect : Type := { x : Z; y : Z; width : Z; height : Z }.

(** The value pushed on [face_area] for one face:
    [(lr.x-ul.x)*(ul.y-lr.y)]. *)
Definition face_area_of (r : Rect) : Z :=
  let ul_x := x r in
  let ul_y := y r in
  let lr_x := iadd (x r) (width r) in
  let lr_y := iadd (y r) (height r) in
  imul (isub lr_x ul_x) (isub ul_y lr_y).

(** The first loop. *)
Definition face_area (faces : list Rect) : list Z := map face_area_of faces.

(** The second loop, from position [i] on: [max] is never assigned. *)
Fixpoint scan (areas : list Z) (i index : nat) (max : Z) : nat :=
  match areas with
  | [] => index
  | a :: rest => scan rest (S i) (if (max <? a)%Z then i else index) max
  end.

Definition select_index (areas : list Z) : nat := scan areas 0%nat 0%nat 0%Z.

(** [msg_pub.pixels] for the chosen face. *)
Definition pixels_of (r : Rect) (cols : Z) : Z :=
  let ul_final_x := x r in
  let lr_final_x := iadd ul_final_x (width r) in
  isub (idiv (iadd lr_final_x ul_final_x) 2) (idiv cols 2).

(** The part of [imageCb] after the detection: the message published on
    [pix_pub], if any, for the detected [faces] in an image [cols] wide. *)
Definition imageCb (faces : list Rect) (cols : Z) : option Z :=
  let index := select_index (face_area faces) in
  match faces with
  | [] => None
  | r0 :: _ => Some (pixels_of (nth index faces r0) cols)
  end.

(** A face of nonnegative size inside an image of at most 32768 columns
    and rows. *)
Definition inside (cols rows : Z) (r : Rect) : Prop :=
  (0 <= x r /\ 0 <= y r /\ 0 <= width r /\ 0 <= height r /\
   x r + width r <= cols /\ y r + height r <= rows /\
   cols <= 32768 /\ rows <= 32768)%Z.

End simplecanny.

(* ================================================================== *)
(** ** compute_output on binary32                                       *)
(* ================================================================== *)

(** IEEE-754 arithmetic with rounding to nearest, ties to even, on the
    two formats of the program: [float] (24 bits of precision) and
    [double] (53 bits), from the specification of floating-point numbers
    of the standard library.  Each operation of the source rounds on its
    own. *)
Module binary32.

Definition float32 : Type := SpecFloat.spec_float.
Definition float64 : Type := SpecFloat.spec_float.

Definition add : float32 -> float32 -> float32 := SpecFloat.SFadd 24 128.
Definition sub : float32 -> float32 -> float32 := SpecFloat.SFsub 24 128.
Definition mul : float32 -> float32 -> float32 := SpecFloat.SFmul 24 128.
Definition div : float32 -> float32 -> float32 := SpecFloat.SFdiv 24 128.
Definition opp : float32 -> float32 := SpecFloat.SFopp.
Definition lt (x y : float32) : bool := SpecFloat.SFltb x y.
Definition gt (x y : float32) : bool := SpecFloat.SFltb y x.

(** Conversion of an [int] to [float]. *)
Definition of_int (z : Z) : float32 :=
  SpecFloat.binary_normalize 24 128 z 0 false.

Definition sub64 : float64 -> float64 -> float64 := SpecFloat.SFsub 53 1024.
Definition div64 : float64 -> float64 -> float64 := SpecFloat.SFdiv 53 1024.

(** Conversion of an integer to [double]. *)
Definition double_of_int (z : Z) : float64 :=
  SpecFloat.binary_normalize 53 1024 z 0 false.

(** Conversion of a [double] to [float]. *)
Definition of_double (x : float64) : float32 :=
  match x with
  | SpecFloat.S754_finite s m e => SpecFloat.binary_round 24 128 s m e
  | _ => x
  end.

(** The decimal literal [n/d] of the source, a [double], passed where a
    [float] is expected. *)
Definition literal (n d : Z) : float32 :=
  of_double (div64 (double_of_int n) (double_of_int d)).

Definition zero : float32 := SpecFloat.S754_zero false.

End binary32.

Module PID32.

Import binary32.

Record array3 : Type := { slot0 : float32; slot1 : float32; slot2 : float32 }.

Record PID_controller : Type := {
  time_stamp_prev : float64;
  integral : float32;
  SP : float32;
  kp : float32;
  ki : float32;
  kd : float32;
  outMax : float32;
  outMin : float32;
  prev_error : array3;
  output_slew_rate : float32;
  prev_output : float32;
  offset : float32
}.

Definition new (SP_in slew_rate_in outMax_in outMin_in
                kp_in ki_in kd_in offset_in : float32) : PID_controller :=
  {| time_stamp_prev := zero;
     integral := zero;
     kp := kp_in;
     ki := ki_in;
     kd := kd_in;
     SP := SP_in;
     outMax := outMax_in;
     outMin := outMin_in;
     prev_error := {| slot0 := zero; slot1 := zero; slot2 := zero |};
     output_slew_rate := slew_rate_in;
     prev_output := zero;
     offset := offset_in |}.

(** [dt = time_stamp_curr - time_stamp_prev]: a difference of doubles
    assigned to a float. *)
Definition elapsed (c : PID_controller) (time_stamp_curr : float64)
  : float32 :=
  of_double (sub64 time_stamp_curr (time_stamp_prev c)).

(** [((error + 3*prev_error[2] - 3*prev_error[1] - prev_error[0])/6)/dt]. *)
Definition derivative_term (c : PID_controller) (error dt : float32)
  : float32 :=
  let pe := prev_error c in
  div (div (sub (sub (add error (mul (of_int 3) (slot2 pe)))
                     (mul (of_int 3) (slot1 pe)))
                (slot0 pe))
           (of_int 6))
      dt.

Definition pid_sum (c : PID_controller)
    (error integral' derivative : float32) : float32 :=
  if gt error (offset c) || lt error (mul (offset c) (of_int (-1)))
  then add (add (mul (kp c) error) (mul (ki c) integral'))
           (mul (kd c) derivative)
  else of_int 0.

Definition slew_limit (c : PID_controller) (output : float32) : float32 :=
  if gt (sub output (prev_output c)) (output_slew_rate c)
  then add (prev_output c) (output_slew_rate c)
  else if lt (sub output (prev_output c)) (opp (output_slew_rate c))
       then sub (prev_output c) (output_slew_rate c)
       else output.

Definition cap (c : PID_controller) (output : float32) : float32 :=
  if gt output (outMax c) then outMax c
  else if lt output (outMin c) then outMin c
       else output.

(** [prev_error[1] = prev_error[0]; prev_error[2] = prev_error[1];
     prev_error[0] = error]. *)
Definition shift_history (pe : array3) (error : float32) : array3 :=
  let pe := {| slot0 := slot0 pe; slot1 := slot0 pe; slot2 := slot2 pe |} in
  let pe := {| slot0 := slot0 pe; slot1 := slot1 pe; slot2 := slot1 pe |} in
  let pe := {| slot0 := error; slot1 := slot1 pe; slot2 := slot2 pe |} in
  pe.

(** [compute_output(PV)] with the clock reading as an argument. *)
Definition compute_output (c : PID_controller) (time_stamp_curr : float64)
    (PV : float32) : PID_controller * float32 :=
  let dt := elapsed c time_stamp_curr in
  let error := sub (SP c) PV in
  let integral' := add (integral c) (mul error dt) in
  let derivative := derivative_term c error dt in
  let output := pid_sum c error integral' derivative in
  let output := slew_limit c output in
  let output := cap c output in
  ({| time_stamp_prev := time_stamp_curr;
      integral := integral';
      SP := SP c;
      kp := kp c;
      ki := ki c;
      kd := kd c;
      outMax := outMax c;
      outMin := outMin c;
      prev_error := shift_history (prev_error c) error;
      output_slew_rate := output_slew_rate c;
      prev_output := output;
      offset := offset c |},
   output).

(** The yaw controller of [main], [PID_controller(0, 0.2, 0.5, -0.5, ...)]. *)
Definition main_yaw_PI (kp ki kd offset : float32) : PID_controller :=
  new (of_int 0) (literal 2 10) (literal 5 10) (literal (-5) 10)
      kp ki kd offset.

End PID32.

(* ================================================================== *)
(** ** Facts about the number model                                     *)
(* ================================================================== *)

Section FloatFacts.

Lemma Qlt_bool_iff (x y : Q) : Qlt_bool x y = true <-> x < y.
Proof.
  unfold Qlt_bool. rewrite negb_true_iff.
  split; intro H.
  - apply Qnot_le_lt. intro Hle. apply Qle_bool_iff in Hle. congruence.
  - destruct (Qle_bool y x) eqn:E; [|reflexivity].
    apply Qle_bool_iff in E. exfalso. apply (Qlt_not_le _ _ H E).
Qed.

Lemma Qlt_bool_false_iff (x y : Q) : Qlt_bool x y = false <-> y <= x.
Proof.
  unfold Qlt_bool. rewrite negb_false_iff. apply Qle_bool_iff.
Qed.

Lemma Qeq_bool_false_iff (x y : Q) : Qeq_bool x y = false <-> ~ x == y.
Proof.
  split.
  - apply Qeq_bool_neq.
  - intro H. destruct (Qeq_bool x y) eqn:E; [|reflexivity].
    apply Qeq_bool_iff in E. contradiction.
Qed.

Lemma fdiv_fin (a b : Q) : ~ b == 0 -> fdiv (Fin a) (Fin b) = Fin (a / b).
Proof.
  intro H. simpl. apply Qeq_bool_false_iff in H. now rewrite H.
Qed.

Lemma fgt_nan_r (x : float) : fgt x NaN = false.
Proof. destruct x; reflexivity. Qed.

Lemma fadd_nan_r (x : float) : fadd x NaN = NaN.
Proof. destruct x; reflexivity. Qed.

Lemma fmul_nan_r (x : float) : fmul x NaN = NaN.
Proof. destruct x; reflexivity. Qed.

Lemma feq_refl (x : float) : feq x x.
Proof. destruct x; simpl; auto. reflexivity. Qed.

Lemma in_range_finite (lo hi : Q) (x : float) :
  in_range lo hi x -> is_finite x = true.
Proof. destruct x; simpl; tauto. Qed.

Lemma is_nan_fin (x : float) : is_finite x = true -> is_nan x = false.
Proof. destruct x; simpl; congruence. Qed.

End FloatFacts.

(** Turns every comparison of rationals that the goal or a hypothesis
    tests into a proposition, one case per outcome. *)
Ltac bool_to_Q :=
  repeat match goal with
  | H : Qlt_bool _ _ = true |- _ => apply Qlt_bool_iff in H
  | H : Qlt_bool _ _ = false |- _ => apply Qlt_bool_false_iff in H
  | H : Qle_bool _ _ = true |- _ => apply Qle_bool_iff in H
  | H : Qle_bool _ _ = false |- _ =>
      apply not_true_iff_false in H; rewrite Qle_bool_iff in H
  | H : Qeq_bool _ _ = true |- _ => apply Qeq_bool_iff in H
  | H : Qeq_bool _ _ = false |- _ => apply Qeq_bool_false_iff in H
  end.

Ltac split_tests :=
  repeat match goal with
  | |- context [Qlt_bool ?a ?b] => destruct (Qlt_bool a b) eqn:?
  | |- context [Qle_bool ?a ?b] => destruct (Qle_bool a b) eqn:?
  | |- context [Qeq_bool ?a ?b] => destruct (Qeq_bool a b) eqn:?
  end;
  bool_to_Q.

(* ================================================================== *)
(** ** The error history and the derivative term                        *)
(* ================================================================== *)

Section History.

Import PID.

(** What the three assignments leave: slot 1 receives the old slot 0, and
    slot 2 then receives the new slot 1, which is the old slot 0 again. *)
Lemma shift_history_slots (pe : array3) (error : float) :
  shift_history pe error =
  {| slot0 := error; slot1 := slot0 pe; slot2 := slot0 pe |}.
Proof. reflexivity. Qed.

Lemma compute_output_history (c : PID_controller) (now : Q) (PV : float) :
  prev_error (fst (compute_output c now PV)) =
  {| slot0 := fsub (SP c) PV; slot1 := slot0 (prev_error c);
     slot2 := slot0 (prev_error c) |}.
Proof. reflexivity. Qed.

Lemma compute_output_SP (c : PID_controller) (now : Q) (PV : float) :
  SP (fst (compute_output c now PV)) = SP c.
Proof. reflexivity. Qed.

Lemma compute_output_time (c : PID_controller) (now : Q) (PV : float) :
  time_stamp_prev (fst (compute_output c now PV)) = now.
Proof. reflexivity. Qed.

(** After any update the slots 1 and 2 hold the same value: the error
    before the last one.  The error two calls back is lost. *)
Lemma history_slots_1_2_equal (c : PID_controller) (now : Q) (PV : float) :
  let c' := fst (compute_output c now PV) in
  aget (prev_error c') I1 = aget (prev_error c') I2.
Proof. reflexivity. Qed.

(** The state after three calls, whatever the outputs were. *)
Lemma history_after_three_calls (c : PID_controller)
    (t0 t1 t2 : Q) (pv0 pv1 pv2 : float) :
  let c3 := fst (run_calls c [(t0, pv0); (t1, pv1); (t2, pv2)]) in
  prev_error c3 =
    {| slot0 := fsub (SP c) pv2; slot1 := fsub (SP c) pv1;
       slot2 := fsub (SP c) pv1 |}
  /\ SP c3 = SP c /\ time_stamp_prev c3 = t2.
Proof.
  cbv zeta. repeat split; reflexivity.
Qed.

(** With finite samples and a nonzero elapsed time, the derivative term
    of the fourth call is [(e3 - e2) / 6 / dt]: the terms in [e1] cancel
    and [e0] does not occur.  (In exact arithmetic; in binary32 the two
    terms in [e1] cancel up to rounding.) *)
Lemma derivative_fourth_call (c : PID_controller)
    (sp t0 t1 t2 t3 p0 p1 p2 p3 : Q) :
  SP c = Fin sp ->
  ~ t3 - t2 == 0 ->
  let c3 := fst (run_calls c [(t0, Fin p0); (t1, Fin p1); (t2, Fin p2)]) in
  feq (derivative_term c3 (fsub (SP c3) (Fin p3)) (elapsed c3 t3))
      (Fin (((sp - p3) - (sp - p2)) / 6 / (t3 - t2))).
Proof.
  intros Hsp Hdt c3.
  pose proof (history_after_three_calls c t0 t1 t2 (Fin p0) (Fin p1) (Fin p2))
    as H.
  cbv zeta in H. fold c3 in H. destruct H as (Hpe & Hsp3 & Ht).
  unfold derivative_term, elapsed.
  rewrite Hpe, Hsp3, Ht, Hsp. cbn [aget slot0 slot1 slot2 fsub fneg fadd fmul].
  rewrite (fdiv_fin _ 6) by (intro H; discriminate H).
  rewrite fdiv_fin by exact Hdt.
  cbn [feq].
  field. exact Hdt.
Qed.

End History.

(* ================================================================== *)
(** ** The stages of compute_output on finite values                    *)
(* ================================================================== *)

Section Stages.

Import PID.

(** The deadband branch: the sum is not computed and the value is 0. *)
Lemma pid_sum_deadband (c : PID_controller) (e off : Q) (i d : float) :
  offset c = Fin off -> - off <= e -> e <= off ->
  pid_sum c (Fin e) i d = Fin 0.
Proof.
  intros Hoff Hlo Hhi. unfold pid_sum. rewrite Hoff.
  cbn [fmul flt fgt].
  split_tests; try reflexivity; exfalso; lra.
Qed.

(** Outside the deadband the value is the weighted sum. *)
Lemma pid_sum_active (c : PID_controller) (e off : Q) (i d : float) :
  offset c = Fin off -> (off < e \/ e < - off) ->
  pid_sum c (Fin e) i d =
  fadd (fadd (fmul (kp c) (Fin e)) (fmul (ki c) i)) (fmul (kd c) d).
Proof.
  intros Hoff H. unfold pid_sum. rewrite Hoff.
  cbn [fmul flt fgt].
  split_tests; try reflexivity; exfalso; lra.
Qed.

Lemma pid_sum_finite (c : PID_controller) (e i d : float) :
  is_finite (kp c) = true -> is_finite (ki c) = true ->
  is_finite (kd c) = true ->
  is_finite e = true -> is_finite i = true -> is_finite d = true ->
  is_finite (pid_sum c e i d) = true.
Proof.
  unfold pid_sum.
  destruct (kp c), (ki c), (kd c), e, i, d; simpl; try discriminate;
    intros _ _ _ _ _ _;
    destruct (_ || _); reflexivity.
Qed.

(** The slew limit returns a finite value within [slew] of the previous
    output for every input that is not NaN, infinities included. *)
Lemma slew_limit_close (c : PID_controller) (p s : Q) (x : float) :
  prev_output c = Fin p -> output_slew_rate c = Fin s -> 0 <= s ->
  is_nan x = false ->
  exists y, slew_limit c x = Fin y /\ p - s <= y /\ y <= p + s.
Proof.
  intros Hp Hs Hs0 Hx. unfold slew_limit. rewrite Hp, Hs.
  destruct x as [q| | |]; try discriminate; cbn [fsub fneg fadd fgt flt].
  - split_tests.
    + exists (p + s). split; [reflexivity | lra].
    + exists (p + - s). split; [reflexivity | lra].
    + exists q. split; [reflexivity | lra].
  - exists (p + s). split; [reflexivity | lra].
  - exists (p + - s). split; [reflexivity | lra].
Qed.

(** Without the sign condition on [slew] the value is still finite. *)
Lemma slew_limit_finite (c : PID_controller) (x : float) :
  is_finite (prev_output c) = true ->
  is_finite (output_slew_rate c) = true ->
  is_nan x = false ->
  is_finite (slew_limit c x) = true.
Proof.
  unfold slew_limit.
  destruct (prev_output c) as [p| | |], (output_slew_rate c) as [s| | |];
    try discriminate.
  intros _ _ Hx.
  destruct x as [q| | |]; try discriminate; cbn [fsub fneg fadd fgt flt];
    split_tests; reflexivity.
Qed.

(** A NaN passes the slew limit: both comparisons are false. *)
Lemma slew_limit_nan (c : PID_controller) : slew_limit c NaN = NaN.
Proof.
  unfold slew_limit. cbn [fsub fadd fneg].
  unfold flt. rewrite fgt_nan_r. reflexivity.
Qed.

(** The cap brings every value that is not NaN into the range. *)
Lemma cap_in_range (c : PID_controller) (lo hi : Q) (x : float) :
  outMin c = Fin lo -> outMax c = Fin hi -> lo <= hi ->
  is_nan x = false ->
  in_range lo hi (cap c x).
Proof.
  intros Hlo Hhi Hle Hx. unfold cap. rewrite Hlo, Hhi.
  destruct x as [q| | |]; try discriminate; cbn [fgt flt].
  - split_tests; cbn [in_range]; lra.
  - cbn [in_range]. lra.
  - cbn [in_range]. lra.
Qed.

(** The cap never moves a value away from a point of the range. *)
Lemma cap_toward (c : PID_controller) (lo hi p s y : Q) :
  outMin c = Fin lo -> outMax c = Fin hi ->
  lo <= p -> p <= hi -> p - s <= y -> y <= p + s ->
  exists z, cap c (Fin y) = Fin z /\ p - s <= z /\ z <= p + s
            /\ lo <= z /\ z <= hi.
Proof.
  intros Hlo Hhi Hp1 Hp2 Hy1 Hy2. unfold cap. rewrite Hlo, Hhi.
  cbn [fgt flt].
  split_tests.
  - exists hi. split; [reflexivity | lra].
  - exists lo. split; [reflexivity | lra].
  - exists y. split; [reflexivity | lra].
Qed.

(** A NaN passes the cap as well. *)
Lemma cap_nan (c : PID_controller) : cap c NaN = NaN.
Proof.
  unfold cap, flt. rewrite fgt_nan_r. reflexivity.
Qed.

(** The derivative term is finite when the history and the error are
    finite and the elapsed time is not zero. *)
Lemma derivative_term_finite (c : PID_controller) (e dt : Q) :
  is_finite (slot0 (prev_error c)) = true ->
  is_finite (slot1 (prev_error c)) = true ->
  is_finite (slot2 (prev_error c)) = true ->
  ~ dt == 0 ->
  is_finite (derivative_term c (Fin e) (Fin dt)) = true.
Proof.
  unfold derivative_term. cbn [aget].
  destruct (slot0 (prev_error c)), (slot1 (prev_error c)),
    (slot2 (prev_error c)); try discriminate.
  intros _ _ _ Hdt. cbn [fmul fadd fsub fneg].
  rewrite (fdiv_fin _ 6) by (intro H; discriminate H).
  rewrite fdiv_fin by exact Hdt. reflexivity.
Qed.

End Stages.

(* ================================================================== *)
(** ** Calls on finite states with a nonzero elapsed time               *)
(* ================================================================== *)

(** The lemmas of this section are about the exact arithmetic of [IEEE]:
    a sum or product of finite values is finite there.  In binary32 a
    product can overflow to an infinity, and what they state of all
    finite values then holds only while no operation overflows. *)

Section FiniteCalls.

Import PID.

Lemma compute_output_value (c : PID_controller) (now : Q) (PV : float) :
  snd (compute_output c now PV) =
  let dt := elapsed c now in
  let error := fsub (SP c) PV in
  cap c (slew_limit c
           (pid_sum c error (fadd (integral c) (fmul error dt))
                    (derivative_term c error dt))).
Proof. reflexivity. Qed.

Lemma compute_output_prev_output (c : PID_controller) (now : Q) (PV : float) :
  prev_output (fst (compute_output c now PV)) = snd (compute_output c now PV).
Proof. reflexivity. Qed.

Lemma compute_output_integral (c : PID_controller) (now : Q) (PV : float) :
  integral (fst (compute_output c now PV)) =
  fadd (integral c) (fmul (fsub (SP c) PV) (elapsed c now)).
Proof. reflexivity. Qed.

Lemma all_finite_fields (c : PID_controller) :
  all_finite c = true <->
  (is_finite (integral c) = true /\ is_finite (SP c) = true /\
   is_finite (kp c) = true /\ is_finite (ki c) = true /\
   is_finite (kd c) = true /\ is_finite (outMax c) = true /\
   is_finite (outMin c) = true /\
   is_finite (slot0 (prev_error c)) = true /\
   is_finite (slot1 (prev_error c)) = true /\
   is_finite (slot2 (prev_error c)) = true /\
   is_finite (output_slew_rate c) = true /\
   is_finite (prev_output c) = true /\ is_finite (offset c) = true).
Proof.
  unfold all_finite. cbn [forallb].
  rewrite !andb_true_iff. tauto.
Qed.

(** One call: a finite state, a finite sample and a nonzero elapsed time
    give a finite state and an output inside the bounds. *)
Lemma compute_output_finite (c : PID_controller) (now lo hi : Q)
    (PV : float) :
  all_finite c = true ->
  outMin c = Fin lo -> outMax c = Fin hi -> lo <= hi ->
  ~ now - time_stamp_prev c == 0 ->
  is_finite PV = true ->
  all_finite (fst (compute_output c now PV)) = true /\
  in_range lo hi (snd (compute_output c now PV)).
Proof.
  intros Hfin Hlo Hhi Hle Hdt Hpv.
  apply all_finite_fields in Hfin.
  destruct Hfin as (Hi & Hsp & Hkp & Hki & Hkd & HM & Hm & H0 & H1 & H2
                    & Hs & Hp & Ho).
  assert (Herr : exists e, fsub (SP c) PV = Fin e).
  { destruct (SP c), PV; try discriminate. eexists; reflexivity. }
  destruct Herr as [e He].
  assert (Hint : is_finite (fadd (integral c) (fmul (Fin e) (elapsed c now)))
                 = true).
  { unfold elapsed. destruct (integral c); try discriminate. reflexivity. }
  assert (Hrange : in_range lo hi (snd (compute_output c now PV))).
  { rewrite compute_output_value. cbv zeta. rewrite He.
    apply cap_in_range; try assumption.
    apply is_nan_fin, slew_limit_finite; try assumption.
    apply is_nan_fin, pid_sum_finite; try assumption; try reflexivity.
    unfold elapsed. now apply derivative_term_finite. }
  split; [| exact Hrange].
  apply all_finite_fields.
  rewrite compute_output_prev_output, compute_output_integral,
    compute_output_history, He.
  cbn [slot0 slot1 slot2].
  repeat split; try assumption; try reflexivity.
  eapply in_range_finite; exact Hrange.
Qed.

(** The bounds and the slew rate never change. *)
Lemma compute_output_params (c : PID_controller) (now : Q) (PV : float) :
  let c' := fst (compute_output c now PV) in
  outMin c' = outMin c /\ outMax c' = outMax c /\
  output_slew_rate c' = output_slew_rate c /\ offset c' = offset c /\
  SP c' = SP c.
Proof. repeat split. Qed.

(** Every output of a sequence of regular samples is inside the bounds. *)
Lemma run_calls_in_range (samples : list (Q * float)) :
  forall (c : PID_controller) (lo hi : Q),
  all_finite c = true ->
  outMin c = Fin lo -> outMax c = Fin hi -> lo <= hi ->
  regular_samples (time_stamp_prev c) samples ->
  Forall (in_range lo hi) (snd (run_calls c samples)).
Proof.
  induction samples as [| [now PV] rest IH]; intros c lo hi Hfin Hlo Hhi Hle Hreg.
  - constructor.
  - destruct Hreg as (Hdt & Hpv & Hrest).
    destruct (compute_output_finite c now lo hi PV Hfin Hlo Hhi Hle Hdt Hpv)
      as [Hfin' Hout].
    cbn [run_calls].
    destruct (compute_output c now PV) as [c' out] eqn:E.
    cbn [fst snd] in Hfin', Hout.
    assert (Hc' : c' = fst (compute_output c now PV)) by now rewrite E.
    specialize (IH c' lo hi Hfin').
    destruct (run_calls c' rest) as [c'' outs].
    cbn [snd] in *.
    constructor; [exact Hout|].
    apply IH; try assumption.
    + rewrite Hc'. exact Hlo.
    + rewrite Hc'. exact Hhi.
    + rewrite Hc', compute_output_time. exact Hrest.
Qed.

(** One call: the output is within the slew rate of the previous one. *)
Lemma compute_output_slew (c : PID_controller) (now lo hi s : Q)
    (PV : float) :
  all_finite c = true ->
  outMin c = Fin lo -> outMax c = Fin hi ->
  output_slew_rate c = Fin s -> 0 <= s ->
  in_range lo hi (prev_output c) ->
  ~ now - time_stamp_prev c == 0 ->
  is_finite PV = true ->
  in_range (- s) s (fsub (snd (compute_output c now PV)) (prev_output c)) /\
  in_range lo hi (snd (compute_output c now PV)).
Proof.
  intros Hfin Hlo Hhi Hs Hs0 Hprev Hdt Hpv.
  destruct (prev_output c) as [p| | |] eqn:Hp; try contradiction.
  cbn [in_range] in Hprev. destruct Hprev as [Hp1 Hp2].
  apply all_finite_fields in Hfin.
  destruct Hfin as (Hi & Hsp & Hkp & Hki & Hkd & HM & Hm & H0 & H1 & H2
                    & Hs' & Hp' & Ho).
  assert (Herr : exists e, fsub (SP c) PV = Fin e).
  { destruct (SP c), PV; try discriminate. eexists; reflexivity. }
  destruct Herr as [e He].
  assert (Hint : is_finite (fadd (integral c) (fmul (Fin e) (elapsed c now)))
                 = true).
  { unfold elapsed. destruct (integral c); try discriminate. reflexivity. }
  rewrite compute_output_value. cbv zeta. rewrite He.
  destruct (slew_limit_close c p s
              (pid_sum c (Fin e)
                 (fadd (integral c) (fmul (Fin e) (elapsed c now)))
                 (derivative_term c (Fin e) (elapsed c now))) Hp Hs Hs0)
    as (y & Hy & Hy1 & Hy2).
  { apply is_nan_fin, pid_sum_finite; try assumption; try reflexivity.
    unfold elapsed. now apply derivative_term_finite. }
  rewrite Hy.
  destruct (cap_toward c lo hi p s y Hlo Hhi Hp1 Hp2 Hy1 Hy2)
    as (z & Hz & Hz1 & Hz2 & Hz3 & Hz4).
  rewrite Hz. cbn [fsub fneg fadd in_range]. lra.
Qed.

(** Consecutive outputs of a sequence of regular samples differ by at
    most the slew rate. *)
Lemma run_calls_steps (samples : list (Q * float)) :
  forall (c : PID_controller) (lo hi s : Q),
  all_finite c = true ->
  outMin c = Fin lo -> outMax c = Fin hi -> lo <= hi ->
  output_slew_rate c = Fin s -> 0 <= s ->
  in_range lo hi (prev_output c) ->
  regular_samples (time_stamp_prev c) samples ->
  steps_within s (prev_output c) (snd (run_calls c samples)).
Proof.
  induction samples as [| [now PV] rest IH];
    intros c lo hi s Hfin Hlo Hhi Hle Hs Hs0 Hprev Hreg.
  - exact I.
  - destruct Hreg as (Hdt & Hpv & Hrest).
    destruct (compute_output_finite c now lo hi PV Hfin Hlo Hhi Hle Hdt Hpv)
      as [Hfin' _].
    destruct (compute_output_slew c now lo hi s PV Hfin Hlo Hhi Hs Hs0
                Hprev Hdt Hpv) as [Hstep Hout].
    cbn [run_calls].
    destruct (compute_output c now PV) as [c' out] eqn:E.
    cbn [fst snd] in Hfin', Hstep, Hout.
    assert (Hc' : c' = fst (compute_output c now PV)) by now rewrite E.
    assert (Hpo : prev_output c' = out).
    { rewrite Hc', compute_output_prev_output, E. reflexivity. }
    specialize (IH c' lo hi s Hfin').
    destruct (run_calls c' rest) as [c'' outs].
    cbn [snd] in *.
    split; [exact Hstep|].
    rewrite <- Hpo. apply IH; try assumption.
    + rewrite Hc'. exact Hlo.
    + rewrite Hc'. exact Hhi.
    + rewrite Hc'. exact Hs.
    + rewrite Hpo. exact Hout.
    + rewrite Hc', compute_output_time. exact Hrest.
Qed.

(** The two lemmas at work on the forward-velocity controller of [main]
    with gains 1, 2, 3 and offset 10: three samples at increasing clock
    readings, the last one with a distance of a million. *)
Example run_calls_in_range_large_error :
  Forall (in_range (- (3 # 10)) (3 # 10))
         (snd (run_calls
                 (autonomy.main_velocity_PI (Fin 1) (Fin 2) (Fin 3) (Fin 10))
                 [(1, Fin 300); (2, Fin 200); (3, Fin 1000000)])).
Proof.
  apply run_calls_in_range; try reflexivity.
  - lra.
  - cbn. repeat split; try reflexivity; intro H; discriminate H.
Qed.

Example run_calls_steps_large_error :
  steps_within (2 # 10) (Fin 0)
         (snd (run_calls
                 (autonomy.main_velocity_PI (Fin 1) (Fin 2) (Fin 3) (Fin 10))
                 [(1, Fin 300); (2, Fin 200); (3, Fin 1000000)])).
Proof.
  apply (run_calls_steps _
           (autonomy.main_velocity_PI (Fin 1) (Fin 2) (Fin 3) (Fin 10))
           (- (3 # 10)) (3 # 10) (2 # 10));
    try reflexivity; try lra.
  - cbn. lra.
  - cbn. repeat split; try reflexivity; intro H; discriminate H.
Qed.

End FiniteCalls.

(* ================================================================== *)
(** ** A zero elapsed time                                              *)
(* ================================================================== *)

Section ZeroElapsed.

Import PID.

(** The derivative term of a call that repeats the previous sample at the
    previous clock reading is NaN, whatever the older history holds: the
    numerator is zero (or already NaN) and so is the divisor. *)
Lemma derivative_term_repeated_sample (c : PID_controller) (t sp pv : Q) :
  SP c = Fin sp ->
  let c1 := fst (compute_output c t (Fin pv)) in
  derivative_term c1 (fsub (SP c1) (Fin pv)) (elapsed c1 t) = NaN.
Proof.
  intros Hsp c1. unfold derivative_term, elapsed.
  subst c1. rewrite compute_output_history, compute_output_SP,
    compute_output_time, Hsp.
  cbn [aget slot0 slot1 slot2 fsub fneg fadd].
  destruct (slot0 (prev_error c)) as [x| | |]; try reflexivity.
  cbn [fmul fadd fsub fneg].
  rewrite (fdiv_fin _ 6) by (intro H; discriminate H).
  cbn [fdiv].
  assert (H0 : Qeq_bool (t - t) 0 = true) by (apply Qeq_bool_iff; ring).
  rewrite H0.
  assert (H1 : Qeq_bool
                 ((sp + - pv + 3 * x + - (3 * x) + - (sp + - pv)) / 6) 0
               = true) by (apply Qeq_bool_iff; field).
  rewrite H1. reflexivity.
Qed.

(** The same sample twice at one clock reading, with the error outside
    the deadband: the second call returns NaN, for every setting of the
    gains, the bounds and the slew rate. *)
Lemma repeated_sample_returns_nan (c : PID_controller) (t sp pv off : Q) :
  SP c = Fin sp -> offset c = Fin off ->
  (off < sp - pv \/ sp - pv < - off) ->
  let c1 := fst (compute_output c t (Fin pv)) in
  snd (compute_output c1 t (Fin pv)) = NaN.
Proof.
  intros Hsp Hoff Hout c1.
  rewrite compute_output_value. cbv zeta.
  pose proof (derivative_term_repeated_sample c t sp pv Hsp) as Hd.
  cbv zeta in Hd. subst c1. rewrite Hd.
  rewrite compute_output_SP, Hsp. cbn [fsub fneg fadd].
  rewrite pid_sum_active with (off := off).
  - rewrite fmul_nan_r, fadd_nan_r, slew_limit_nan, cap_nan. reflexivity.
  - exact Hoff.
  - unfold Qminus in Hout. exact Hout.
Qed.

End ZeroElapsed.

(* ================================================================== *)
(** ** Calls at the setpoint                                            *)
(* ================================================================== *)

Section AtSetpoint.

Import PID.

(** One call with the process value at the setpoint, from a previous
    output of zero: the output is exactly zero.  Nothing is asked of the
    gains, the integral, the history or the elapsed time. *)
Lemma compute_output_at_setpoint (c : PID_controller) (now : Q)
    (sp off s lo hi p : Q) :
  SP c = Fin sp -> offset c = Fin off -> 0 <= off ->
  output_slew_rate c = Fin s -> 0 <= s ->
  outMin c = Fin lo -> outMax c = Fin hi -> lo <= 0 -> 0 <= hi ->
  prev_output c = Fin p -> p == 0 ->
  snd (compute_output c now (Fin sp)) = Fin 0.
Proof.
  intros Hsp Hoff Hoff0 Hs Hs0 Hlo Hhi Hlo0 Hhi0 Hp Hp0.
  rewrite compute_output_value. cbv zeta.
  rewrite Hsp. cbn [fsub fneg fadd].
  rewrite pid_sum_deadband with (off := off); try assumption; try lra.
  unfold cap, slew_limit. rewrite Hp, Hs, Hlo, Hhi.
  cbn [fsub fneg fadd fgt flt].
  assert (T1 : Qlt_bool s (0 + - p) = false)
    by (apply Qlt_bool_false_iff; lra).
  assert (T2 : Qlt_bool (0 + - p) (- s) = false)
    by (apply Qlt_bool_false_iff; lra).
  rewrite T1, T2. cbn [fgt].
  assert (T3 : Qlt_bool hi 0 = false) by (apply Qlt_bool_false_iff; lra).
  assert (T4 : Qlt_bool 0 lo = false) by (apply Qlt_bool_false_iff; lra).
  rewrite T3, T4. reflexivity.
Qed.

(** The samples of a constant input at the setpoint [sp]. *)
Lemma run_calls_at_setpoint (times : list Q) :
  forall (c : PID_controller) (sp off s lo hi p : Q),
  SP c = Fin sp -> offset c = Fin off -> 0 <= off ->
  output_slew_rate c = Fin s -> 0 <= s ->
  outMin c = Fin lo -> outMax c = Fin hi -> lo <= 0 -> 0 <= hi ->
  prev_output c = Fin p -> p == 0 ->
  Forall (fun o => o = Fin 0)
         (snd (run_calls c (map (fun t => (t, Fin sp)) times))).
Proof.
  induction times as [| t rest IH];
    intros c sp off s lo hi p Hsp Hoff Hoff0 Hs Hs0 Hlo Hhi Hlo0 Hhi0 Hp Hp0.
  - constructor.
  - pose proof (compute_output_at_setpoint c t sp off s lo hi p
                  Hsp Hoff Hoff0 Hs Hs0 Hlo Hhi Hlo0 Hhi0 Hp Hp0) as Hout.
    cbn [map run_calls].
    destruct (compute_output c t (Fin sp)) as [c' out] eqn:E.
    cbn [snd] in Hout.
    assert (Hc' : c' = fst (compute_output c t (Fin sp))) by now rewrite E.
    specialize (IH c' sp off s lo hi 0).
    destruct (run_calls c' (map (fun t0 => (t0, Fin sp)) rest))
      as [c'' outs].
    cbn [snd] in *.
    constructor; [exact Hout|].
    apply IH; try assumption; try (rewrite Hc'; assumption);
      try reflexivity.
    rewrite Hc', compute_output_prev_output, E. exact Hout.
Qed.

Lemma run_calls_cons (c : PID_controller) (now : Q) (PV : float)
    (rest : list (Q * float)) :
  snd (run_calls c ((now, PV) :: rest)) =
  snd (compute_output c now PV)
    :: snd (run_calls (fst (compute_output c now PV)) rest).
Proof.
  cbn [run_calls].
  destruct (compute_output c now PV) as [c' out]. cbn [fst snd].
  destruct (run_calls c' rest) as [c'' outs]. reflexivity.
Qed.

(** One call at the setpoint from a previous output [p] that is not
    zero: the output moves from [p] towards 0 by the slew rate, and
    stops at 0.  [b] bounds the previous output and [b'] the new one. *)
Lemma compute_output_at_setpoint_decays (c : PID_controller) (now : Q)
    (sp off s lo hi p b b' : Q) :
  SP c = Fin sp -> offset c = Fin off -> 0 <= off ->
  output_slew_rate c = Fin s -> 0 <= s ->
  outMin c = Fin lo -> outMax c = Fin hi -> lo <= 0 -> 0 <= hi ->
  prev_output c = Fin p -> lo <= p -> p <= hi ->
  - b <= p -> p <= b -> 0 <= b' -> b - s <= b' ->
  exists q,
    snd (compute_output c now (Fin sp)) = Fin q
    /\ lo <= q /\ q <= hi /\ - b' <= q /\ q <= b'.
Proof.
  intros Hsp Hoff Hoff0 Hs Hs0 Hlo Hhi Hlo0 Hhi0 Hp Hp1 Hp2 Hb1 Hb2 Hb' Hbb.
  rewrite compute_output_value. cbv zeta.
  rewrite Hsp. cbn [fsub fneg fadd].
  rewrite pid_sum_deadband with (off := off); try assumption; try lra.
  unfold cap, slew_limit. rewrite Hp, Hs, Hlo, Hhi.
  cbn [fsub fneg fadd fgt flt].
  destruct (Qlt_bool s (0 + - p)) eqn:T1; bool_to_Q; cbn [fgt flt].
  - destruct (Qlt_bool hi (p + s)) eqn:T3; bool_to_Q; [exfalso; lra|].
    destruct (Qlt_bool (p + s) lo) eqn:T4; bool_to_Q; [exfalso; lra|].
    eexists; split; [reflexivity | lra].
  - destruct (Qlt_bool (0 + - p) (- s)) eqn:T2; bool_to_Q; cbn [fgt flt].
    + destruct (Qlt_bool hi (p + - s)) eqn:T3; bool_to_Q; [exfalso; lra|].
      destruct (Qlt_bool (p + - s) lo) eqn:T4; bool_to_Q; [exfalso; lra|].
      eexists; split; [reflexivity | lra].
    + destruct (Qlt_bool hi 0) eqn:T3; bool_to_Q; [exfalso; lra|].
      destruct (Qlt_bool 0 lo) eqn:T4; bool_to_Q; [exfalso; lra|].
      eexists; split; [reflexivity | lra].
Qed.

(** The warm-up.  A controller in use, whose previous output is anywhere
    within the bounds, is fed the setpoint: when the bounds are within
    three slew steps of 0, the third call returns 0 and so does every
    call after it. *)
Lemma warm_up_then_zero (c : PID_controller) (sp off s lo hi p : Q)
    (t1 t2 t3 : Q) (times : list Q) :
  SP c = Fin sp -> offset c = Fin off -> 0 <= off ->
  output_slew_rate c = Fin s -> 0 <= s ->
  outMin c = Fin lo -> outMax c = Fin hi -> lo <= 0 -> 0 <= hi ->
  - (3 * s) <= lo -> hi <= 3 * s ->
  prev_output c = Fin p -> lo <= p -> p <= hi ->
  Forall (fun o => feq o (Fin 0))
         (skipn 2 (snd (run_calls c (map (fun t => (t, Fin sp))
                                         (t1 :: t2 :: t3 :: times))))).
Proof.
  intros Hsp Hoff Hoff0 Hs Hs0 Hlo Hhi Hlo0 Hhi0 Hlo3 Hhi3 Hp Hp1 Hp2.
  cbn [map]. rewrite !run_calls_cons. cbn [skipn].
  destruct (compute_output_at_setpoint_decays c t1 sp off s lo hi p
              (3 * s) (2 * s))
    as (q1 & E1 & L1 & U1 & A1 & B1); try assumption; try lra.
  set (c1 := fst (compute_output c t1 (Fin sp))).
  destruct (compute_output_at_setpoint_decays c1 t2 sp off s lo hi q1
              (2 * s) s)
    as (q2 & E2 & L2 & U2 & A2 & B2); try assumption; try lra.
  set (c2 := fst (compute_output c1 t2 (Fin sp))).
  destruct (compute_output_at_setpoint_decays c2 t3 sp off s lo hi q2
              s 0)
    as (q3 & E3 & L3 & U3 & A3 & B3); try assumption; try lra.
  set (c3 := fst (compute_output c2 t3 (Fin sp))).
  constructor.
  - rewrite E3. cbn [feq]. lra.
  - eapply Forall_impl;
      [| apply (run_calls_at_setpoint times c3 sp off s lo hi q3);
         try assumption; lra].
    intros o Ho. rewrite Ho. apply feq_refl.
Qed.

End AtSetpoint.

(* ================================================================== *)
(** ** The altitude ramp                                                *)
(* ================================================================== *)

Section Ramp.

Import increase_altitude.

Lemma callback_publishes_climb (s : state) (altd : Z) :
  move_drone_pub (callback s altd) = move_drone_pub s ++ [climb].
Proof. reflexivity. Qed.

(** The loop does not run when the recorded altitude is at the target. *)
Lemma spin_loop_done (s : state) (telemetry : list (option Z)) :
  (desired_altitude s <= current_altitude s)%Z ->
  spin_loop s telemetry = Returned s telemetry.
Proof.
  intro H. destruct telemetry; cbn [spin_loop];
    destruct (Z.ltb_spec (current_altitude s) (desired_altitude s));
    try reflexivity; lia.
Qed.

(** The loop over a script that stays below the target and then delivers
    an altitude at or above it: every delivered message, the last one
    included, is answered by one climb command, and the rest of the
    script is left unread. *)
Lemma spin_loop_reaches (pre : list (option Z)) :
  forall (s : state) (final : Z) (rest : list (option Z)),
  navdata_altitude s = true ->
  (current_altitude s < desired_altitude s)%Z ->
  Forall (below (desired_altitude s)) pre ->
  (desired_altitude s <= final)%Z ->
  exists s',
    spin_loop s (pre ++ Some final :: rest) = Returned s' rest /\
    current_altitude s' = final /\
    desired_altitude s' = desired_altitude s /\
    navdata_altitude s' = true /\
    move_drone_pub s' =
      move_drone_pub s ++ repeat climb (length (delivered pre) + 1).
Proof.
  induction pre as [| pending pre IH]; intros s final rest Hsub Hlt Hpre Hfin.
  - cbn [app spin_loop].
    destruct (Z.ltb_spec (current_altitude s) (desired_altitude s));
      [| lia].
    cbn [spinOnce]. rewrite Hsub.
    exists (callback s final). split.
    + apply spin_loop_done. cbn. exact Hfin.
    + repeat split. exact Hsub.
  - inversion Hpre as [| ? ? Hp Hpre']; subst.
    cbn [app spin_loop].
    destruct (Z.ltb_spec (current_altitude s) (desired_altitude s));
      [| lia].
    destruct pending as [altd |]; cbn [spinOnce].
    + rewrite Hsub. cbn [below] in Hp.
      destruct (IH (callback s altd) final rest)
        as (s' & Hrun & Hc & Hd & Hn & Hpub); try assumption.
      exists s'. split; [exact Hrun|]. repeat split; try assumption.
      rewrite Hpub, callback_publishes_climb.
      cbn [delivered flat_map app length Nat.add repeat].
      fold (delivered pre).
      rewrite <- app_assoc. reflexivity.
    + destruct (IH s final rest) as (s' & Hrun & Hc & Hd & Hn & Hpub);
        try assumption.
      exists s'. split; [exact Hrun|]. repeat split; assumption.
Qed.

(** While the script stays below the target the loop does not end: when
    the script is exhausted the call has not returned, one climb command
    has been sent for every message delivered, and the subscription is
    still live. *)
Lemma spin_loop_spins (pre : list (option Z)) :
  forall (s : state),
  navdata_altitude s = true ->
  (current_altitude s < desired_altitude s)%Z ->
  Forall (below (desired_altitude s)) pre ->
  exists s',
    spin_loop s pre = Spinning s' /\
    navdata_altitude s' = true /\
    move_drone_pub s' =
      move_drone_pub s ++ repeat climb (length (delivered pre)).
Proof.
  induction pre as [| pending pre IH]; intros s Hsub Hlt Hpre;
    cbn [spin_loop];
    destruct (Z.ltb_spec (current_altitude s) (desired_altitude s));
    try lia.
  - exists s. repeat split; try assumption.
    cbn. now rewrite app_nil_r.
  - inversion Hpre as [| ? ? Hp Hpre']; subst.
    destruct pending as [altd |]; cbn [spinOnce].
    + rewrite Hsub.
      destruct (IH (callback s altd)) as (s' & Hrun & Hn & Hpub);
        try assumption.
      exists s'. repeat split; try assumption.
      rewrite Hpub, callback_publishes_climb.
      cbn [delivered flat_map app length repeat].
      fold (delivered pre).
      rewrite <- app_assoc. reflexivity.
    + destruct (IH s) as (s' & Hrun & Hn & Hpub); try assumption.
      exists s'. repeat split; assumption.
Qed.

(** With a target that is not positive the loop is not entered: [run]
    sends the stop command alone and reads no telemetry. *)
Lemma run_target_not_positive (target : Z) (pub : list Twist)
    (telemetry : list (option Z)) :
  (target <= 0)%Z ->
  exists s',
    run (new pub target) telemetry = Returned s' telemetry /\
    move_drone_pub s' = pub ++ [stop] /\
    navdata_altitude s' = false.
Proof.
  intro H. unfold run, new.
  cbn [current_altitude desired_altitude move_drone_pub].
  rewrite spin_loop_done by (cbn; exact H).
  eexists. repeat split.
Qed.

(** A script that never reaches a positive target: [run] is still in its
    loop when the script ends; no stop command has been sent. *)
Lemma run_spins_below_target (target : Z) (pub : list Twist)
    (telemetry : list (option Z)) :
  (0 < target)%Z ->
  Forall (below target) telemetry ->
  exists s',
    run (new pub target) telemetry = Spinning s' /\
    navdata_altitude s' = true /\
    move_drone_pub s' =
      pub ++ repeat climb (length (delivered telemetry)).
Proof.
  intros Ht Hb. unfold run, new.
  cbn [current_altitude desired_altitude move_drone_pub].
  destruct (spin_loop_spins telemetry
              {| current_altitude := 0; desired_altitude := target;
                 move_drone_pub := pub; navdata_altitude := true |})
    as (s' & Hrun & Hn & Hpub); try assumption; try reflexivity.
  rewrite Hrun. exists s'. repeat split; assumption.
Qed.

End Ramp.

(* ================================================================== *)
(** ** The tracking callback                                            *)
(* ================================================================== *)

Section Tracking.

Import PID.

(** The forward velocity of the command that [callback] sends is the
    negated output of the forward-velocity controller. *)
Lemma callback_x_velocity (a : autonomy.state) (t_x t_yaw t_z : Q)
    (img : autonomy.image) :
  autonomy.last_x_velocity (autonomy.callback a t_x t_yaw t_z img) =
  Some (fneg (snd (compute_output (autonomy.velocity_PI a) t_x
                                  (autonomy.distance img)))).
Proof.
  unfold autonomy.callback, autonomy.last_x_velocity.
  destruct (compute_output (autonomy.velocity_PI a) t_x
              (autonomy.distance img)) as [cv ov].
  destruct (compute_output (autonomy.yaw_PI a) t_yaw (autonomy.yaw img))
    as [cy oy].
  destruct (compute_output (autonomy.alt_PI a) t_z (autonomy.height img))
    as [ca oa].
  cbn [autonomy.move_drone_pub]. unfold move_drone.
  rewrite rev_unit. reflexivity.
Qed.

Lemma weighted_sum_negative (kp ki kd e dt X : Q) :
  0 < kp -> 0 <= ki -> 0 <= kd -> e < 0 -> 0 < dt ->
  X == kp * e + ki * (e * dt) + kd * (e / 6 / dt) ->
  X < 0.
Proof.
  intros Hkp Hki Hkd He Hdt HX.
  assert (Hinv : 0 < / dt) by now apply Qinv_lt_0_compat.
  assert (H0 : 0 < kp * (- e)) by (apply Qmult_lt_0_compat; lra).
  assert (H1 : 0 <= ki * ((- e) * dt)).
  { apply Qmult_le_0_compat; [lra|]. apply Qmult_le_0_compat; lra. }
  assert (H2 : 0 <= kd * ((- e) * / dt)).
  { apply Qmult_le_0_compat; [lra|]. apply Qmult_le_0_compat; lra. }
  assert (E : kp * e + ki * (e * dt) + kd * (e / 6 / dt)
              == - (kp * (- e)) - ki * ((- e) * dt)
                 - (1 # 6) * (kd * ((- e) * / dt))).
  { field. lra. }
  rewrite HX, E. lra.
Qed.

(** Slew limit and cap of a negative value, from a previous output of 0:
    the result is negative and no further from 0 than the slew rate. *)
Lemma limit_negative (c : PID_controller) (x s lo hi : Q) :
  prev_output c = Fin 0 -> output_slew_rate c = Fin s -> 0 < s ->
  outMin c = Fin lo -> outMax c = Fin hi -> lo <= - s -> 0 <= hi ->
  x < 0 ->
  exists q, cap c (slew_limit c (Fin x)) = Fin q /\ - s <= q /\ q < 0.
Proof.
  intros Hp Hs Hs0 Hlo Hhi Hlos Hhi0 Hx.
  unfold cap, slew_limit. rewrite Hp, Hs, Hlo, Hhi.
  cbn [fsub fneg fadd fgt flt].
  destruct (Qlt_bool s (x + - 0)) eqn:T1; bool_to_Q; [exfalso; lra|].
  destruct (Qlt_bool (x + - 0) (- s)) eqn:T2; bool_to_Q; cbn [fgt flt].
  - destruct (Qlt_bool hi (0 + - s)) eqn:T3; bool_to_Q; [exfalso; lra|].
    destruct (Qlt_bool (0 + - s) lo) eqn:T4; bool_to_Q; [exfalso; lra|].
    eexists; split; [reflexivity | lra].
  - destruct (Qlt_bool hi x) eqn:T3; bool_to_Q; [exfalso; lra|].
    destruct (Qlt_bool x lo) eqn:T4; bool_to_Q; [exfalso; lra|].
    eexists; split; [reflexivity | lra].
Qed.

(** The first output of the forward-velocity controller of [main] for a
    distance of 300: negative, and no further from 0 than the slew rate. *)
Lemma velocity_first_output (kp ki kd off t : Q) :
  0 < kp -> 0 <= ki -> 0 <= kd -> off < 50 -> 0 < t ->
  exists q,
    snd (compute_output
           (autonomy.main_velocity_PI (Fin kp) (Fin ki) (Fin kd) (Fin off))
           t (Fin 300)) = Fin q
    /\ - (2 # 10) <= q /\ q < 0.
Proof.
  intros Hkp Hki Hkd Hoff Ht.
  rewrite compute_output_value. cbv zeta.
  set (c := autonomy.main_velocity_PI (Fin kp) (Fin ki) (Fin kd) (Fin off)).
  change (SP c) with (Fin 250). cbn [fsub fneg fadd].
  rewrite pid_sum_active with (off := off); [| reflexivity | right; lra].
  unfold derivative_term, elapsed.
  change (prev_error c)
    with {| slot0 := Fin 0; slot1 := Fin 0; slot2 := Fin 0 |}.
  change (time_stamp_prev c) with 0.
  change (integral c) with (Fin 0).
  change (PID.kp c) with (Fin kp). change (PID.ki c) with (Fin ki).
  change (PID.kd c) with (Fin kd).
  cbn [aget slot0 slot1 slot2 fmul fadd fsub fneg].
  rewrite (fdiv_fin _ 6) by (intro H; discriminate H).
  rewrite fdiv_fin by lra.
  cbn [fmul fadd].
  apply limit_negative with (lo := - (3 # 10)) (hi := 3 # 10);
    try reflexivity; try lra.
  apply (weighted_sum_negative kp ki kd (- 50) t); try assumption; try lra.
  field. lra.
Qed.

End Tracking.

(* ================================================================== *)
(** ** The properties of the specification                              *)
(* ================================================================== *)

Section Properties.

Import PID.

(** C1.  The derivative term of the fourth call, after the error samples
    1, 2, 4 at the clock readings 1, 2, 3 and with the current error 8 at
    the reading 4 (setpoint 0, so each process value is the negated
    error; every elapsed time is 1).  The history then holds 4, 2, 2 in
    the slots 0, 1, 2, not the three previous errors: the derivative term
    is (8 + 3*2 - 3*2 - 4) / 6 = 2/3, and not the estimator
    (e3 + 3*e2 - 3*e1 - e0) / 6 / dt = 13/6 of the specification. *)
Theorem derivative_fourth_call_loses_samples :
  let c0 := new (Fin 0) (Fin (1 # 2)) (Fin 1) (Fin (-1))
                (Fin 1) (Fin 0) (Fin 1) (Fin 0) in
  let c3 := fst (run_calls c0 [(1, Fin (-1)); (2, Fin (-2));
                               (3, Fin (-4))]) in
  let d := derivative_term c3 (fsub (SP c3) (Fin (-8))) (elapsed c3 4) in
  feq (aget (prev_error c3) I0) (Fin 4) /\
  feq (aget (prev_error c3) I1) (Fin 2) /\
  feq (aget (prev_error c3) I2) (Fin 2) /\
  feq (elapsed c3 4) (Fin 1) /\
  feq d (Fin (2 # 3)) /\
  ~ feq d (Fin (spec_derivative 1 2 4 8 1)).
Proof.
  vm_compute. repeat split; try reflexivity. intro H. discriminate H.
Qed.

(** C3.  A sample whose elapsed time is zero is not rejected.  The
    forward-velocity controller of [main] (proportional gain 1, the other
    gains and the offset 0) receives the distance 300 twice at the clock
    reading 1.  On the second call the elapsed time is 0, the derivative
    term is the quotient 0/0, a NaN, the returned output is NaN, and the
    object is updated as for any other sample: the NaN is stored as the
    previous output and the error enters the history. *)
Theorem zero_elapsed_sample_returns_nan :
  let c0 := autonomy.main_velocity_PI (Fin 1) (Fin 0) (Fin 0) (Fin 0) in
  let c1 := fst (compute_output c0 1 (Fin 300)) in
  let r := compute_output c1 1 (Fin 300) in
  feq (elapsed c1 1) (Fin 0) /\
  derivative_term c1 (fsub (SP c1) (Fin 300)) (elapsed c1 1) = NaN /\
  snd r = NaN /\
  prev_output (fst r) = NaN /\
  feq (aget (prev_error (fst r)) I0) (Fin (-50)).
Proof.
  vm_compute. repeat split; reflexivity.
Qed.

(** C4.  An output outside the bounds.  The forward-velocity controller
    of [main] has the bounds -0.3 and 0.3; fed the distance 300 twice at
    the clock reading 1 it returns -0.2 and then NaN, which both tests of
    the cap let through. *)
Theorem output_escapes_bounds_on_zero_elapsed :
  let c0 := autonomy.main_velocity_PI (Fin 1) (Fin 0) (Fin 0) (Fin 0) in
  let outs := snd (run_calls c0 [(1, Fin 300); (1, Fin 300)]) in
  outs = [Fin (- (2 # 10)); NaN] /\
  ~ Forall (in_range (- (3 # 10)) (3 # 10)) outs.
Proof.
  split.
  - vm_compute. reflexivity.
  - intro H. apply Forall_inv_tail, Forall_inv in H. exact H.
Qed.

(** C5.  A step between consecutive outputs that is not within the slew
    rate.  The yaw controller of [main] has the slew rate 0.2 and the
    bounds -0.5 and 0.5; with proportional gain 1 and the horizontal
    offset 40 delivered twice at the clock reading 7, the outputs are
    -0.2 and NaN, and the difference of the two is NaN. *)
Theorem output_step_escapes_slew_on_zero_elapsed :
  let c0 := autonomy.main_yaw_PI (Fin 1) (Fin 0) (Fin 0) (Fin 0) in
  let outs := snd (run_calls c0 [(7, Fin 40); (7, Fin 40)]) in
  nth 0 outs (Fin 0) = Fin (- (2 # 10)) /\
  nth 1 outs (Fin 0) = NaN /\
  fsub (nth 1 outs (Fin 0)) (nth 0 outs (Fin 0)) = NaN /\
  ~ steps_within (2 # 10) (prev_output c0) outs.
Proof.
  repeat split.
  intro H. vm_compute in H. tauto.
Qed.

(** C8.  The constructor stores the time stamp 0, not a clock reading:
    the elapsed time of the first call is the clock reading itself,
    whenever the object was built.  For an object built at the clock
    reading 1000 and first called at 1001 the elapsed time is 1001, not
    the second that passed. *)
Theorem first_call_elapsed_is_clock_reading :
  (forall (SP_in slew outMax_in outMin_in kp_in ki_in kd_in offset_in : float)
          (now : Q),
     time_stamp_prev (new SP_in slew outMax_in outMin_in
                          kp_in ki_in kd_in offset_in) = 0 /\
     feq (elapsed (new SP_in slew outMax_in outMin_in
                       kp_in ki_in kd_in offset_in) now)
         (Fin now)) /\
  ~ feq (elapsed (autonomy.main_velocity_PI (Fin 1) (Fin 0) (Fin 0) (Fin 0))
                 1001)
        (Fin (1001 - 1000)).
Proof.
  split.
  - intros. split; [reflexivity|].
    unfold elapsed, new. cbn [time_stamp_prev feq]. ring.
  - vm_compute. intro H. discriminate H.
Qed.

(** C2, as the specification states it, fails.  With a proportional
    gain of 1 (the other gains and the offset 0) and the clock reading 1,
    the measurement with distance 300 makes [callback] send the forward
    velocity 0.2, which is not negative.  With the offset 60 the error
    -50 lies in the deadband, and both the output of the controller and
    the forward velocity sent are 0, not negative either. *)
Lemma tracking_forward_velocity_not_negative :
  ~ (exists v,
       autonomy.last_x_velocity
         (autonomy.callback (autonomy.main_drone autonomy.argv_kp_only)
                            1 1 1 autonomy.target_at_300) = Some v
       /\ flt v (Fin 0) = true
       /\ in_range (- (3 # 10)) (3 # 10) v)
  /\ ~ (exists v,
          autonomy.last_x_velocity
            (autonomy.callback
               (autonomy.main_drone autonomy.argv_wide_deadband)
               1 1 1 autonomy.target_at_300) = Some v
          /\ flt v (Fin 0) = true
          /\ in_range (- (3 # 10)) (3 # 10) v)
  /\ flt (snd (compute_output
                 (autonomy.velocity_PI
                    (autonomy.main_drone autonomy.argv_wide_deadband))
                 1 (Fin 300)))
         (Fin 0) = false.
Proof.
  split; [| split].
  - intros (v & Hv & Hneg & _).
    vm_compute in Hv. inversion Hv; subst v.
    vm_compute in Hneg. discriminate Hneg.
  - intros (v & Hv & Hneg & _).
    vm_compute in Hv. inversion Hv; subst v.
    vm_compute in Hneg. discriminate Hneg.
  - reflexivity.
Qed.

(** C2, amended.  For the forward-velocity controller that [main] builds
    (setpoint 250, slew rate 0.2, bounds -0.3 and 0.3) with a positive
    proportional gain, nonnegative integral and derivative gains and an
    offset below 50, the first measurement, with distance 300 and read at
    a positive clock value, gives a controller output [o] that is
    negative and within the bounds; [callback] sends its negation as the
    forward velocity, which is positive, at most the slew rate 0.2, and
    within the bounds. *)
Theorem tracking_forward_velocity_positive
    (argv : nat -> float) (kp ki kd off t_x t_yaw t_z : Q)
    (img : autonomy.image) :
  argv 5%nat = Fin kp -> argv 6%nat = Fin ki ->
  argv 7%nat = Fin kd -> argv 8%nat = Fin off ->
  0 < kp -> 0 <= ki -> 0 <= kd -> off < 50 -> 0 < t_x ->
  autonomy.distance img = Fin 300 ->
  exists o,
    snd (compute_output (autonomy.velocity_PI (autonomy.main_drone argv))
                        t_x (autonomy.distance img)) = Fin o
    /\ o < 0 /\ in_range (- (3 # 10)) (3 # 10) (Fin o)
    /\ autonomy.last_x_velocity
         (autonomy.callback (autonomy.main_drone argv) t_x t_yaw t_z img)
       = Some (Fin (- o))
    /\ 0 < - o /\ - o <= 2 # 10
    /\ in_range (- (3 # 10)) (3 # 10) (Fin (- o)).
Proof.
  intros H5 H6 H7 H8 Hkp Hki Hkd Hoff Ht Himg.
  rewrite callback_x_velocity, Himg.
  unfold autonomy.main_drone, autonomy.new.
  cbn [autonomy.velocity_PI]. rewrite H5, H6, H7, H8.
  destruct (velocity_first_output kp ki kd off t_x Hkp Hki Hkd Hoff Ht)
    as (q & Hq & Hq1 & Hq2).
  rewrite Hq. cbn [fneg].
  exists q. split; [reflexivity|].
  cbn [in_range]. repeat split; try reflexivity; lra.
Qed.

Lemma tracking_forward_velocity_positive_witness :
  exists o,
    snd (compute_output
           (autonomy.velocity_PI (autonomy.main_drone autonomy.argv_kp_only))
           1 (autonomy.distance autonomy.target_at_300)) = Fin o
    /\ o < 0 /\ in_range (- (3 # 10)) (3 # 10) (Fin o)
    /\ autonomy.last_x_velocity
         (autonomy.callback (autonomy.main_drone autonomy.argv_kp_only)
                            1 1 1 autonomy.target_at_300)
       = Some (Fin (- o))
    /\ 0 < - o /\ - o <= 2 # 10
    /\ in_range (- (3 # 10)) (3 # 10) (Fin (- o)).
Proof.
  apply (tracking_forward_velocity_positive
           autonomy.argv_kp_only 1 0 0 0 1 1 1 autonomy.target_at_300);
    try reflexivity; lra.
Defined.

(** C6, as the specification states it, fails: a climb command is also
    sent when the recorded altitude is not below the target.  With the
    target 1300, [callback] on the update 1300 first records the altitude
    1300 and then sends a climb command.  For the telemetry 0, 700, 1300
    the wording of the specification gives two climb commands and the
    stop command; [run] sends three climb commands and the stop
    command. *)
Lemma run_climbs_on_the_update_that_reaches_target :
  let s := {| increase_altitude.current_altitude := 700;
              increase_altitude.desired_altitude := 1300;
              increase_altitude.move_drone_pub := [];
              increase_altitude.navdata_altitude := true |} in
  let telemetry := [Some 0%Z; Some 700%Z; Some 1300%Z] in
  (increase_altitude.desired_altitude (increase_altitude.callback s 1300)
   <= increase_altitude.current_altitude (increase_altitude.callback s 1300))%Z
  /\ increase_altitude.move_drone_pub (increase_altitude.callback s 1300)
     = [increase_altitude.climb]
  /\ increase_altitude.run (increase_altitude.new [] 1300) telemetry
     = increase_altitude.Returned
         {| increase_altitude.current_altitude := 1300;
            increase_altitude.desired_altitude := 1300;
            increase_altitude.move_drone_pub :=
              [increase_altitude.climb; increase_altitude.climb;
               increase_altitude.climb; increase_altitude.stop];
            increase_altitude.navdata_altitude := false |} []
  /\ increase_altitude.spec_commands 1300
       (increase_altitude.delivered telemetry)
     = Some [increase_altitude.climb; increase_altitude.climb;
             increase_altitude.stop]
  /\ Some [increase_altitude.climb; increase_altitude.climb;
           increase_altitude.climb; increase_altitude.stop]
     <> increase_altitude.spec_commands 1300
          (increase_altitude.delivered telemetry).
Proof.
  cbv zeta. split; [cbn; lia|].
  repeat split. vm_compute. intro H. discriminate H.
Qed.

(** C6, amended.  For a positive target and every telemetry script that
    stays below the target and then delivers an altitude at or above it,
    [run] returns.  Its commands are a climb command (zero forward, zero
    yaw, vertical 0.6) for every update delivered while the altitude
    recorded before it was below the target, the update that reaches the
    target included, followed by exactly one zero-velocity stop command.
    The subscription is shut down, the recorded altitude is the one that
    reached the target, and the rest of the script is not read. *)
Theorem run_climbs_then_stops
    (target final : Z) (pub : list Twist)
    (pre rest : list (option Z)) :
  (0 < target)%Z ->
  Forall (increase_altitude.below target) pre ->
  (target <= final)%Z ->
  exists s',
    increase_altitude.run (increase_altitude.new pub target)
                          (pre ++ Some final :: rest)
    = increase_altitude.Returned s' rest
    /\ increase_altitude.move_drone_pub s' =
         pub ++ repeat increase_altitude.climb
                       (length (increase_altitude.delivered pre) + 1)
             ++ [increase_altitude.stop]
    /\ increase_altitude.navdata_altitude s' = false
    /\ increase_altitude.current_altitude s' = final.
Proof.
  intros Htarget Hpre Hfinal.
  unfold increase_altitude.run, increase_altitude.new.
  cbn [increase_altitude.current_altitude increase_altitude.desired_altitude
       increase_altitude.move_drone_pub].
  destruct (spin_loop_reaches pre
              {| increase_altitude.current_altitude := 0;
                 increase_altitude.desired_altitude := target;
                 increase_altitude.move_drone_pub := pub;
                 increase_altitude.navdata_altitude := true |}
              final rest)
    as (s1 & Hrun & Hc & Hd & Hn & Hpub); try assumption; try reflexivity.
  rewrite Hrun.
  eexists. split; [reflexivity|].
  cbn [increase_altitude.move_drone_pub increase_altitude.navdata_altitude
       increase_altitude.current_altitude].
  repeat split; try assumption.
  rewrite Hpub. unfold move_drone.
  cbn [increase_altitude.move_drone_pub].
  rewrite <- app_assoc. reflexivity.
Qed.

Lemma run_climbs_then_stops_witness :
  exists s',
    increase_altitude.run (increase_altitude.new [] 1300)
      ([Some 0%Z; None; Some 700%Z] ++ Some 1300%Z :: [Some 1400%Z])
    = increase_altitude.Returned s' [Some 1400%Z]
    /\ increase_altitude.move_drone_pub s' =
         [] ++ repeat increase_altitude.climb
                      (length (increase_altitude.delivered
                                 [Some 0%Z; None; Some 700%Z]) + 1)
            ++ [increase_altitude.stop]
    /\ increase_altitude.navdata_altitude s' = false
    /\ increase_altitude.current_altitude s' = 1300%Z.
Proof.
  apply (run_climbs_then_stops 1300 1300 []
           [Some 0%Z; None; Some 700%Z] [Some 1400%Z]).
  - lia.
  - repeat constructor.
  - lia.
Defined.

(** C7, as the specification states it, fails: a nonnegative offset is
    not enough.  With the bounds 1 and 2 (offset 0, slew rate 1,
    setpoint 0) every call with the process value at the setpoint returns
    the lower bound 1; the fifth output is 1, not 0, and lies outside the
    deadband. *)
Lemma setpoint_output_nonzero_when_bounds_exclude_zero :
  let c0 := new (Fin 0) (Fin 1) (Fin 2) (Fin 1)
                (Fin 1) (Fin 0) (Fin 0) (Fin 0) in
  let outs :=
    snd (run_calls c0 (map (fun t => (t, Fin 0)) [1; 2; 3; 4; 5])) in
  nth_error outs 4 = Some (Fin 1)
  /\ ~ feq (Fin 1) (Fin 0)
  /\ ~ in_range (- 0) 0 (Fin 1).
Proof.
  split; [reflexivity|].
  split.
  - intro H. discriminate H.
  - intros [_ H]. vm_compute in H. apply H. reflexivity.
Qed.

(** C7, amended.  For a controller built with a nonnegative offset, a
    nonnegative slew rate and bounds with outMin <= 0 <= outMax, and any
    gains, every call of a constant input sequence with the process value
    equal to the setpoint returns exactly 0, from the first call on and
    whatever the clock readings are; 0 lies within the deadband. *)
Theorem constant_setpoint_input_returns_zero
    (sp off s lo hi : Q) (kp_in ki_in kd_in : float) (times : list Q) :
  0 <= off -> 0 <= s -> lo <= 0 -> 0 <= hi ->
  Forall (fun o => o = Fin 0 /\ in_range (- off) off o)
         (snd (run_calls
                 (new (Fin sp) (Fin s) (Fin hi) (Fin lo)
                      kp_in ki_in kd_in (Fin off))
                 (map (fun t => (t, Fin sp)) times))).
Proof.
  intros Hoff Hs Hlo Hhi.
  pose proof (run_calls_at_setpoint times
                (new (Fin sp) (Fin s) (Fin hi) (Fin lo)
                     kp_in ki_in kd_in (Fin off))
                sp off s lo hi 0) as H.
  eapply Forall_impl; [| apply H; try reflexivity; assumption].
  intros o Ho. split; [exact Ho|].
  rewrite Ho. cbn [in_range]. lra.
Qed.

Lemma constant_setpoint_input_returns_zero_witness :
  Forall (fun o => o = Fin 0 /\ in_range (- 5) 5 o)
         (snd (run_calls
                 (new (Fin 250) (Fin (2 # 10)) (Fin (3 # 10))
                      (Fin (- (3 # 10))) (Fin 1) (Fin 1) (Fin 1) (Fin 5))
                 (map (fun t => (t, Fin 250)) [1; 2; 2; 3; 4; 5]))).
Proof.
  apply (constant_setpoint_input_returns_zero
           250 5 (2 # 10) (- (3 # 10)) (3 # 10)
           (Fin 1) (Fin 1) (Fin 1) [1; 2; 2; 3; 4; 5]); lra.
Defined.




End Properties.

(* ================================================================== *)
(** ** Further properties of compute_output                             *)
(* ================================================================== *)

Section ControlLaw.

Import PID.

(** The properties of this section do not depend on how the sums and
    products are rounded: they follow from the comparisons of the slew
    limit and of the cap and from the order of the assignments. *)

Lemma cap_nan_or_in_range (c : PID_controller) (lo hi : Q) (x : float) :
  outMin c = Fin lo -> outMax c = Fin hi -> lo <= hi ->
  cap c x = NaN \/ in_range lo hi (cap c x).
Proof.
  intros Hlo Hhi Hle. destruct (is_nan x) eqn:E.
  - destruct x; try discriminate. left. apply cap_nan.
  - right. now apply cap_in_range.
Qed.

Lemma run_calls_nan_or_in_range (samples : list (Q * float)) :
  forall (c : PID_controller) (lo hi : Q),
  outMin c = Fin lo -> outMax c = Fin hi -> lo <= hi ->
  Forall (fun o => o = NaN \/ in_range lo hi o) (snd (run_calls c samples)).
Proof.
  induction samples as [| [t PV] rest IH]; intros c lo hi Hlo Hhi Hle.
  - constructor.
  - rewrite run_calls_cons. constructor.
    + rewrite compute_output_value. cbv zeta.
      now apply cap_nan_or_in_range.
    + apply IH; assumption.
Qed.

(** Whatever the state, the gains, the measurements and the clock
    readings are, every value that [compute_output] returns is NaN or
    lies within the bounds: no other value, and no infinity, leaves the
    cap. *)
Theorem outputs_nan_or_within_bounds
    (c : PID_controller) (lo hi : Q) (samples : list (Q * float)) :
  outMin c = Fin lo -> outMax c = Fin hi -> lo <= hi ->
  Forall (fun o => o = NaN \/ in_range lo hi o) (snd (run_calls c samples)).
Proof.
  intros. now apply run_calls_nan_or_in_range.
Qed.

Lemma outputs_nan_or_within_bounds_witness :
  Forall (fun o => o = NaN \/ in_range (- (3 # 10)) (3 # 10) o)
         (snd (run_calls
                 (autonomy.main_velocity_PI (Fin 1) (Fin 2) PInf (Fin 10))
                 [(1, Fin 300); (1, Fin 300); (2, NInf); (3, NaN);
                  (3, Fin 1000000)])).
Proof.
  apply (outputs_nan_or_within_bounds
           (autonomy.main_velocity_PI (Fin 1) (Fin 2) PInf (Fin 10))
           (- (3 # 10)) (3 # 10)); try reflexivity.
  lra.
Defined.

(** The slew limit turns no value into a NaN, as long as the previous
    output is not an infinity (it never is: it is 0 or a value returned
    by the cap). *)
Lemma slew_limit_not_nan (c : PID_controller) (x : float) :
  prev_output c <> PInf -> prev_output c <> NInf ->
  is_nan x = false ->
  is_nan (slew_limit c x) = false.
Proof.
  intros Hp Hn Hx. unfold slew_limit.
  destruct (prev_output c) as [p| | |]; try contradiction.
  - destruct x as [q| | |]; try discriminate;
      destruct (output_slew_rate c) as [s| | |];
      cbn [fsub fneg fadd fgt flt is_nan]; split_tests; reflexivity.
  - unfold fsub. cbn [fneg]. rewrite fadd_nan_r.
    unfold flt. rewrite fgt_nan_r. cbn [fgt]. exact Hx.
Qed.

(** A call returns NaN exactly when the weighted sum (or the 0 of the
    deadband) is NaN.  An infinite sum is replaced by the slew limit or
    by the cap, and every value that is not NaN ends within the
    bounds. *)
Theorem output_nan_exactly_when_sum_nan
    (c : PID_controller) (now lo hi : Q) (PV : float) :
  outMin c = Fin lo -> outMax c = Fin hi -> lo <= hi ->
  prev_output c <> PInf -> prev_output c <> NInf ->
  let error := fsub (SP c) PV in
  let dt := elapsed c now in
  let sum := pid_sum c error (fadd (integral c) (fmul error dt))
                     (derivative_term c error dt) in
  (snd (compute_output c now PV) = NaN <-> sum = NaN)
  /\ (sum <> NaN -> in_range lo hi (snd (compute_output c now PV))).
Proof.
  intros Hlo Hhi Hle Hp Hn error dt sum.
  rewrite compute_output_value. cbv zeta. fold error dt sum.
  assert (Hgood : sum <> NaN -> in_range lo hi (cap c (slew_limit c sum))).
  { intro Hs. apply cap_in_range; try assumption.
    apply slew_limit_not_nan; try assumption.
    destruct sum; try reflexivity. contradiction. }
  split; [split |]; [| | exact Hgood].
  - intro E. destruct sum; try reflexivity;
      (assert (H : in_range lo hi (cap c (slew_limit c _)))
         by (apply Hgood; discriminate);
       rewrite E in H; contradiction).
  - intro E. rewrite E, slew_limit_nan, cap_nan. reflexivity.
Qed.

Lemma output_nan_exactly_when_sum_nan_witness :
  let c := fst (compute_output
                  (autonomy.main_yaw_PI (Fin 1) (Fin 0) (Fin 1) (Fin 0))
                  7 (Fin 40)) in
  let error := fsub (SP c) (Fin (-10)) in
  let dt := elapsed c 7 in
  let sum := pid_sum c error (fadd (integral c) (fmul error dt))
                     (derivative_term c error dt) in
  ((snd (compute_output c 7 (Fin (-10))) = NaN <-> sum = NaN)
   /\ (sum <> NaN ->
       in_range (- (5 # 10)) (5 # 10) (snd (compute_output c 7 (Fin (-10))))))
  /\ sum = PInf.
Proof.
  split.
  - apply (output_nan_exactly_when_sum_nan
             (fst (compute_output
                     (autonomy.main_yaw_PI (Fin 1) (Fin 0) (Fin 1) (Fin 0))
                     7 (Fin 40)))
             7 (- (5 # 10)) (5 # 10) (Fin (-10)));
      try reflexivity; try lra; intro H; discriminate H.
  - reflexivity.
Defined.

Lemma run_calls_app_fst (l1 l2 : list (Q * float)) :
  forall c : PID_controller,
  fst (run_calls c (l1 ++ l2)) = fst (run_calls (fst (run_calls c l1)) l2).
Proof.
  induction l1 as [| [t PV] rest IH]; intro c.
  - reflexivity.
  - cbn [app run_calls].
    destruct (compute_output c t PV) as [c1 o1].
    specialize (IH c1).
    destruct (run_calls c1 (rest ++ l2)) as [c2 outs2].
    destruct (run_calls c1 rest) as [c3 outs3].
    cbn [fst] in *. exact IH.
Qed.

(** The setpoint, the gains, the bounds, the slew rate and the offset
    are the same after any sequence of calls. *)
Lemma run_calls_params (samples : list (Q * float)) :
  forall c : PID_controller,
  let c' := fst (run_calls c samples) in
  SP c' = SP c /\ offset c' = offset c /\
  kp c' = kp c /\ ki c' = ki c /\ kd c' = kd c /\
  outMin c' = outMin c /\ outMax c' = outMax c /\
  output_slew_rate c' = output_slew_rate c.
Proof.
  induction samples as [| [t PV] rest IH]; intro c.
  - cbn. repeat split.
  - cbn [run_calls].
    destruct (compute_output c t PV) as [c1 o1] eqn:E.
    assert (Hc1 : c1 = fst (compute_output c t PV)) by now rewrite E.
    specialize (IH c1).
    destruct (run_calls c1 rest) as [c2 outs]. cbn [fst] in *.
    cbv zeta in IH. rewrite Hc1 in IH. exact IH.
Qed.

(** The history after any sequence of calls that ends with the samples
    [pv1] and [pv2].  Slot 0 holds the error of the last call and the
    slots 1 and 2 both hold the error of the call before it: of the three
    slots only two ever hold different errors, and the error of the
    third-last call is never kept. *)
Theorem history_keeps_two_errors
    (c : PID_controller) (samples : list (Q * float))
    (t1 t2 : Q) (pv1 pv2 : float) :
  prev_error (fst (run_calls c (samples ++ [(t1, pv1); (t2, pv2)]))) =
  {| slot0 := fsub (SP c) pv2;
     slot1 := fsub (SP c) pv1;
     slot2 := fsub (SP c) pv1 |}.
Proof.
  rewrite run_calls_app_fst.
  destruct (run_calls_params samples c) as (Hsp & _).
  set (c' := fst (run_calls c samples)) in *.
  cbn [run_calls].
  destruct (compute_output c' t1 pv1) as [c1 o1] eqn:E1.
  destruct (compute_output c1 t2 pv2) as [c2 o2] eqn:E2.
  cbn [fst].
  replace c2 with (fst (compute_output c1 t2 pv2)) by now rewrite E2.
  rewrite compute_output_history.
  replace c1 with (fst (compute_output c' t1 pv1)) by now rewrite E1.
  rewrite compute_output_history, compute_output_SP, Hsp.
  reflexivity.
Qed.

(** An integral that is NaN stays NaN. *)
Lemma run_calls_integral_nan (samples : list (Q * float)) :
  forall c : PID_controller,
  integral c = NaN -> integral (fst (run_calls c samples)) = NaN.
Proof.
  induction samples as [| [t PV] rest IH]; intros c Hc.
  - exact Hc.
  - cbn [run_calls].
    destruct (compute_output c t PV) as [c1 o1] eqn:E.
    assert (Hc1 : integral c1 = NaN).
    { replace c1 with (fst (compute_output c t PV)) by now rewrite E.
      rewrite compute_output_integral, Hc. reflexivity. }
    specialize (IH c1 Hc1).
    destruct (run_calls c1 rest) as [c2 outs]. exact IH.
Qed.

(** A measurement that is NaN.  The error is NaN, both deadband tests are
    false, and the call returns what an error inside the deadband gives:
    a 0 that passes the slew limit and the cap.  But the integral becomes
    NaN and stays NaN through every later sample, so that every later
    call whose error lies outside the deadband returns NaN. *)
Theorem nan_measurement_poisons_later_outputs
    (c : PID_controller) (t t' sp pv off : Q) (samples : list (Q * float)) :
  SP c = Fin sp -> offset c = Fin off ->
  (off < sp - pv \/ sp - pv < - off) ->
  let c1 := fst (compute_output c t NaN) in
  let c2 := fst (run_calls c1 samples) in
  snd (compute_output c t NaN) = cap c (slew_limit c (Fin 0))
  /\ integral c2 = NaN
  /\ snd (compute_output c2 t' (Fin pv)) = NaN.
Proof.
  intros Hsp Hoff Hout c1 c2.
  assert (H1 : snd (compute_output c t NaN) = cap c (slew_limit c (Fin 0))).
  { rewrite compute_output_value. cbv zeta.
    unfold fsub. cbn [fneg]. rewrite fadd_nan_r.
    unfold pid_sum, flt. rewrite fgt_nan_r. reflexivity. }
  assert (H2 : integral c2 = NaN).
  { subst c2. apply run_calls_integral_nan.
    subst c1. rewrite compute_output_integral.
    unfold fsub. cbn [fneg]. rewrite fadd_nan_r.
    cbn [fmul]. apply fadd_nan_r. }
  split; [exact H1 | split; [exact H2 |]].
  destruct (run_calls_params samples c1)
    as (Hsp2 & Hoff2 & _). fold c2 in Hsp2, Hoff2.
  rewrite compute_output_value. cbv zeta.
  rewrite Hsp2, H2. subst c1. rewrite compute_output_SP, Hsp.
  cbn [fsub fneg fadd fmul].
  rewrite pid_sum_active with (off := off).
  - rewrite fmul_nan_r. rewrite fadd_nan_r. cbn [fadd].
    rewrite slew_limit_nan, cap_nan. reflexivity.
  - rewrite Hoff2. exact Hoff.
  - unfold Qminus in Hout. exact Hout.
Qed.

Lemma nan_measurement_poisons_later_outputs_witness :
  let c := autonomy.main_velocity_PI (Fin 1) (Fin 0) (Fin 0) (Fin 10) in
  let c1 := fst (compute_output c 1 NaN) in
  let c2 := fst (run_calls c1 [(2, Fin 250); (3, Fin 255)]) in
  snd (compute_output c 1 NaN) = cap c (slew_limit c (Fin 0))
  /\ integral c2 = NaN
  /\ snd (compute_output c2 4 (Fin 300)) = NaN.
Proof.
  apply (nan_measurement_poisons_later_outputs
           (autonomy.main_velocity_PI (Fin 1) (Fin 0) (Fin 0) (Fin 10))
           1 4 250 300 10 [(2, Fin 250); (3, Fin 255)]);
    try reflexivity.
  right. lra.
Defined.

Lemma warm_up_then_zero_witness :
  let c := fst (compute_output
                  (autonomy.main_yaw_PI (Fin 1) (Fin 1) (Fin 1) (Fin 5))
                  1 (Fin 40)) in
  Forall (fun o => feq o (Fin 0))
         (skipn 2 (snd (run_calls c (map (fun t => (t, Fin 0))
                                         (2 :: 2 :: 3 :: [4; 5]))))).
Proof.
  apply (warm_up_then_zero
           (fst (compute_output
                   (autonomy.main_yaw_PI (Fin 1) (Fin 1) (Fin 1) (Fin 5))
                   1 (Fin 40)))
           0 5 (2 # 10) (- (5 # 10)) (5 # 10) (- (2 # 10)) 2 2 3 [4; 5]);
    try reflexivity; lra.
Defined.

End ControlLaw.

(* ================================================================== *)
(** ** The tracking loop                                                *)
(* ================================================================== *)

Section TrackingLoop.

Import PID.

Lemma run_calls_cons_fst (c : PID_controller) (now : Q) (PV : float)
    (rest : list (Q * float)) :
  fst (run_calls c ((now, PV) :: rest)) =
  fst (run_calls (fst (compute_output c now PV)) rest).
Proof.
  cbn [run_calls].
  destruct (compute_output c now PV) as [c' out]. cbn [fst].
  destruct (run_calls c' rest) as [c'' outs]. reflexivity.
Qed.

Lemma run_calls_length (samples : list (Q * float)) :
  forall c : PID_controller,
  length (snd (run_calls c samples)) = length samples.
Proof.
  induction samples as [| [t PV] rest IH]; intro c.
  - reflexivity.
  - rewrite run_calls_cons. cbn [length]. now rewrite IH.
Qed.

(** [callback] as one record: each controller is called once, on its own
    field of the message, and one command is appended. *)
Lemma callback_fields (a : autonomy.state) (tx tyaw tz : Q)
    (img : autonomy.image) :
  let rx := compute_output (autonomy.velocity_PI a) tx
                           (autonomy.distance img) in
  let ry := compute_output (autonomy.yaw_PI a) tyaw (autonomy.yaw img) in
  let rz := compute_output (autonomy.alt_PI a) tz (autonomy.height img) in
  autonomy.callback a tx tyaw tz img =
  {| autonomy.move_drone_pub :=
       autonomy.move_drone_pub a
         ++ [node.command_of (snd rx) (snd ry) (snd rz)];
     autonomy.takeoff_altitude := autonomy.takeoff_altitude a;
     autonomy.velocity_PI := fst rx;
     autonomy.yaw_PI := fst ry;
     autonomy.alt_PI := fst rz |}.
Proof.
  cbv zeta. unfold autonomy.callback.
  destruct (compute_output (autonomy.velocity_PI a) tx
              (autonomy.distance img)) as [cv ov].
  destruct (compute_output (autonomy.yaw_PI a) tyaw (autonomy.yaw img))
    as [cy oy].
  destruct (compute_output (autonomy.alt_PI a) tz (autonomy.height img))
    as [ca oa].
  reflexivity.
Qed.

Lemma tracking_spec (script : list node.delivery) :
  forall a : autonomy.state,
  let rx := run_calls (autonomy.velocity_PI a) (node.samples_x script) in
  let ry := run_calls (autonomy.yaw_PI a) (node.samples_yaw script) in
  let rz := run_calls (autonomy.alt_PI a) (node.samples_z script) in
  autonomy.velocity_PI (node.tracking a script) = fst rx
  /\ autonomy.yaw_PI (node.tracking a script) = fst ry
  /\ autonomy.alt_PI (node.tracking a script) = fst rz
  /\ autonomy.move_drone_pub (node.tracking a script) =
       autonomy.move_drone_pub a ++ node.zip3 (snd rx) (snd ry) (snd rz).
Proof.
  induction script as [| d rest IH]; intro a; cbv zeta.
  - cbn. rewrite app_nil_r. repeat split.
  - unfold node.tracking. cbn [fold_left].
    fold (node.tracking
            (autonomy.callback a (node.t_x d) (node.t_yaw d) (node.t_z d)
                               (node.data d)) rest).
    rewrite callback_fields. cbv zeta.
    match goal with
    | |- context [node.tracking ?a1 rest] => specialize (IH a1)
    end.
    cbv zeta in IH.
    cbn [autonomy.velocity_PI autonomy.yaw_PI autonomy.alt_PI
         autonomy.move_drone_pub] in IH.
    destruct IH as (Hx & Hy & Hz & Hpub).
    unfold node.samples_x, node.samples_yaw, node.samples_z.
    cbn [map].
    rewrite !run_calls_cons_fst, !run_calls_cons.
    fold (node.samples_x rest) (node.samples_yaw rest) (node.samples_z rest).
    cbn [node.zip3].
    repeat split; try assumption.
    rewrite Hpub, <- app_assoc. reflexivity.
Qed.

(** The three axes do not interact.  Over any script of messages, each
    controller ends in the state that its own samples alone produce, and
    the commands sent are, message by message, the negated output of the
    forward-velocity controller, the output of the vertical controller
    and the output of the yaw controller. *)
Theorem tracking_axes_are_independent
    (a : autonomy.state) (script : list node.delivery) :
  let rx := run_calls (autonomy.velocity_PI a) (node.samples_x script) in
  let ry := run_calls (autonomy.yaw_PI a) (node.samples_yaw script) in
  let rz := run_calls (autonomy.alt_PI a) (node.samples_z script) in
  autonomy.velocity_PI (node.tracking a script) = fst rx
  /\ autonomy.yaw_PI (node.tracking a script) = fst ry
  /\ autonomy.alt_PI (node.tracking a script) = fst rz
  /\ autonomy.move_drone_pub (node.tracking a script) =
       autonomy.move_drone_pub a ++ node.zip3 (snd rx) (snd ry) (snd rz).
Proof.
  apply tracking_spec.
Qed.

Lemma zip3_length (xs ws zs : list float) :
  length ws = length xs -> length zs = length xs ->
  length (node.zip3 xs ws zs) = length xs.
Proof.
  revert ws zs. induction xs as [| x xs IH]; intros ws zs Hw Hz.
  - reflexivity.
  - destruct ws as [| w ws]; [discriminate|].
    destruct zs as [| z zs]; [discriminate|].
    cbn [node.zip3 length]. cbn [length] in Hw, Hz. f_equal.
    apply IH; congruence.
Qed.

Lemma zip3_Forall (P : Twist -> Prop) (Px Pw Pz : float -> Prop) :
  (forall x w z, Px x -> Pw w -> Pz z -> P (node.command_of x w z)) ->
  forall xs ws zs,
  Forall Px xs -> Forall Pw ws -> Forall Pz zs ->
  Forall P (node.zip3 xs ws zs).
Proof.
  intros HP xs. induction xs as [| x xs IH]; intros ws zs Hx Hw Hz.
  - constructor.
  - destruct ws as [| w ws]; [constructor|].
    destruct zs as [| z zs]; [constructor|].
    inversion Hx; inversion Hw; inversion Hz; subst.
    cbn [node.zip3]. constructor; [now apply HP | now apply IH].
Qed.

(** One command for every message, and no command moves the drone
    sideways or turns it about a horizontal axis: the members linear.y,
    angular.x and angular.y of every command are 0. *)
Theorem tracking_sends_one_command_per_message
    (a : autonomy.state) (script : list node.delivery) :
  exists cmds,
    autonomy.move_drone_pub (node.tracking a script)
      = autonomy.move_drone_pub a ++ cmds
    /\ length cmds = length script
    /\ Forall (fun m => linear_y m = Fin 0
                        /\ angular_x m = Fin 0 /\ angular_y m = Fin 0) cmds.
Proof.
  destruct (tracking_spec script a) as (_ & _ & _ & Hpub).
  eexists. split; [exact Hpub|]. split.
  - rewrite zip3_length; rewrite !run_calls_length;
      unfold node.samples_x, node.samples_yaw, node.samples_z;
      rewrite ?length_map; reflexivity.
  - apply zip3_Forall
      with (Px := fun _ => True) (Pw := fun _ => True) (Pz := fun _ => True).
    + intros. repeat split.
    + apply Forall_forall. intros; exact I.
    + apply Forall_forall. intros; exact I.
    + apply Forall_forall. intros; exact I.
Qed.

Lemma fneg_nan_or_in_range (b : Q) (x : float) :
  x = NaN \/ in_range (- b) b x ->
  fneg x = NaN \/ in_range (- b) b (fneg x).
Proof.
  intros [H | H].
  - left. now rewrite H.
  - right. destruct x; cbn [fneg in_range] in *; try tauto. lra.
Qed.

(** The commands of the node that [main] builds.  For every command
    line and every script of measurements and clock readings, each
    command sent while tracking has a forward velocity that is NaN or
    within -0.3 and 0.3, a vertical velocity that is NaN or within -0.4
    and 0.4, and a yaw rate that is NaN or within -0.5 and 0.5: the
    bounds that [main] gives the three controllers. *)
Theorem tracking_commands_nan_or_within_bounds
    (argv : nat -> float) (script : list node.delivery) :
  Forall (fun m =>
            (linear_x m = NaN \/ in_range (- (3 # 10)) (3 # 10) (linear_x m))
            /\ (linear_z m = NaN
                \/ in_range (- (4 # 10)) (4 # 10) (linear_z m))
            /\ (angular_z m = NaN
                \/ in_range (- (5 # 10)) (5 # 10) (angular_z m)))
         (autonomy.move_drone_pub
            (node.tracking (autonomy.main_drone argv) script)).
Proof.
  destruct (tracking_spec script (autonomy.main_drone argv))
    as (_ & _ & _ & Hpub).
  rewrite Hpub. cbn [autonomy.main_drone autonomy.new autonomy.move_drone_pub
                     autonomy.velocity_PI autonomy.yaw_PI autonomy.alt_PI app].
  apply zip3_Forall
    with (Px := fun o => o = NaN \/ in_range (- (3 # 10)) (3 # 10) o)
         (Pw := fun o => o = NaN \/ in_range (- (5 # 10)) (5 # 10) o)
         (Pz := fun o => o = NaN \/ in_range (- (4 # 10)) (4 # 10) o).
  - intros x w z Px Pw Pz. cbn [node.command_of linear_x linear_z angular_z].
    split; [apply fneg_nan_or_in_range; exact Px | split; assumption].
  - apply run_calls_nan_or_in_range; try reflexivity; lra.
  - apply run_calls_nan_or_in_range; try reflexivity; lra.
  - apply run_calls_nan_or_in_range; try reflexivity; lra.
Qed.

End TrackingLoop.

(* ================================================================== *)
(** ** The ramp on any script, initialize and main                      *)
(* ================================================================== *)

Section Lifecycle.

Import increase_altitude.

(** The loop on any script, from a state with a live subscription: it
    sends one climb command for every message it hands to [callback] and
    nothing else; it ends only on a recorded altitude at the target. *)
Lemma spin_loop_trace (telemetry : list (option Z)) :
  forall s : state,
  navdata_altitude s = true ->
  match spin_loop s telemetry with
  | Returned s' rest =>
      exists consumed,
        telemetry = consumed ++ rest
        /\ move_drone_pub s' =
             move_drone_pub s ++ repeat climb (length (delivered consumed))
        /\ (desired_altitude s' <= current_altitude s')%Z
        /\ desired_altitude s' = desired_altitude s
        /\ navdata_altitude s' = true
  | Spinning s' =>
      move_drone_pub s' =
        move_drone_pub s ++ repeat climb (length (delivered telemetry))
      /\ (current_altitude s' < desired_altitude s')%Z
      /\ desired_altitude s' = desired_altitude s
      /\ navdata_altitude s' = true
  end.
Proof.
  induction telemetry as [| pending rest IH]; intros s Hsub; cbn [spin_loop];
    destruct (Z.ltb_spec (current_altitude s) (desired_altitude s)).
  - cbn. rewrite app_nil_r. repeat split; assumption.
  - exists []. cbn. rewrite app_nil_r. repeat split; assumption.
  - destruct pending as [altd |]; cbn [spinOnce].
    + rewrite Hsub. specialize (IH (callback s altd) Hsub).
      destruct (spin_loop (callback s altd) rest) as [s' rest' | s'].
      * destruct IH as (consumed & Hc & Hpub & Hge & Hd & Hn).
        exists (Some altd :: consumed). rewrite Hc.
        repeat split; try assumption.
        rewrite Hpub, callback_publishes_climb.
        cbn [delivered flat_map app length repeat].
        fold (delivered consumed). now rewrite <- app_assoc.
      * destruct IH as (Hpub & Hlt & Hd & Hn). repeat split; try assumption.
        rewrite Hpub, callback_publishes_climb.
        cbn [delivered flat_map app length repeat].
        fold (delivered rest). now rewrite <- app_assoc.
    + specialize (IH s Hsub).
      destruct (spin_loop s rest) as [s' rest' | s'].
      * destruct IH as (consumed & Hc & Hpub & Hge & Hd & Hn).
        exists (None :: consumed). rewrite Hc.
        repeat split; assumption.
      * exact IH.
  - exists []. cbn. rewrite app_nil_r. repeat split; assumption.
Qed.

(** [run] on any script of telemetry.  When it has returned, it has sent
    one climb command for every message it read, then one stop command,
    the recorded altitude is at or above the target and the subscription
    is shut down.  When it has not, it has sent one climb command for
    every message and no stop command, and the subscription is live. *)
Theorem run_sends_climbs_then_at_most_one_stop
    (target : Z) (pub : list Twist) (telemetry : list (option Z)) :
  match run (new pub target) telemetry with
  | Returned s' rest =>
      exists consumed,
        telemetry = consumed ++ rest
        /\ move_drone_pub s' =
             pub ++ repeat climb (length (delivered consumed)) ++ [stop]
        /\ (target <= current_altitude s')%Z
        /\ navdata_altitude s' = false
  | Spinning s' =>
      move_drone_pub s' = pub ++ repeat climb (length (delivered telemetry))
      /\ (current_altitude s' < target)%Z
      /\ navdata_altitude s' = true
  end.
Proof.
  unfold run, new.
  cbn [current_altitude desired_altitude move_drone_pub].
  pose proof (spin_loop_trace telemetry
                {| current_altitude := 0; desired_altitude := target;
                   move_drone_pub := pub; navdata_altitude := true |}
                eq_refl) as H.
  destruct (spin_loop _ telemetry) as [s' rest | s'].
  - destruct H as (consumed & Hc & Hpub & Hge & Hd & Hn).
    cbn [desired_altitude move_drone_pub] in Hd, Hpub.
    exists consumed.
    cbn [move_drone_pub current_altitude navdata_altitude].
    repeat split; try assumption.
    + rewrite Hpub. unfold move_drone. now rewrite <- app_assoc.
    + rewrite <- Hd. exact Hge.
  - destruct H as (Hpub & Hlt & Hd & Hn).
    cbn [move_drone_pub desired_altitude] in Hpub, Hd.
    repeat split; try assumption.
    rewrite <- Hd. exact Hlt.
Qed.

Lemma run_spins_below_target_witness :
  exists s',
    run (new [stop] 1300) [Some 0%Z; None; Some 1299%Z] = Spinning s' /\
    navdata_altitude s' = true /\
    move_drone_pub s' =
      [stop] ++ repeat climb (length (delivered [Some 0%Z; None; Some 1299%Z])).
Proof.
  apply (run_spins_below_target 1300 [stop] [Some 0%Z; None; Some 1299%Z]).
  - lia.
  - repeat constructor.
Defined.

Lemma run_target_not_positive_witness :
  exists s',
    run (new [] 0) [Some 5%Z; Some 2000%Z] = Returned s' [Some 5%Z; Some 2000%Z]
    /\ move_drone_pub s' = [] ++ [stop]
    /\ navdata_altitude s' = false.
Proof.
  apply (run_target_not_positive 0 [] [Some 5%Z; Some 2000%Z]). lia.
Defined.

(** The events that start every run of [main]. *)
Lemma main_prefix_commands (n : nat) :
  map node.CmdVel (move_drone [] (Fin 0) (Fin 0) (Fin 0) ++ repeat climb n)
  = node.CmdVel stop :: repeat (node.CmdVel climb) n.
Proof.
  rewrite map_app, map_repeat. reflexivity.
Qed.

(** [main] while the altitude stays below 1300.  Whatever the command
    line and however many measurements wait, the node has done the flat
    trim, the takeoff, the sleep and the hover command, and has answered
    every telemetry message with a climb command: no ready signal is sent
    and no measurement is processed. *)
Theorem main_is_not_ready_below_takeoff_altitude
    (argv : nat -> float) (telemetry : list (option Z))
    (script : list node.delivery) :
  Forall (below 1300) telemetry ->
  node.main argv telemetry script =
    [node.FlatTrim; node.Takeoff; node.Sleep 3000000; node.CmdVel stop]
      ++ repeat (node.CmdVel climb) (length (delivered telemetry)).
Proof.
  intro Hb. unfold node.main, node.initialize.
  cbn [autonomy.main_drone autonomy.new autonomy.takeoff_altitude].
  unfold run, new.
  cbn [current_altitude desired_altitude move_drone_pub].
  destruct (spin_loop_spins telemetry
              {| current_altitude := 0; desired_altitude := 1300;
                 move_drone_pub := move_drone [] (Fin 0) (Fin 0) (Fin 0);
                 navdata_altitude := true |})
    as (s' & Hrun & Hn & Hpub); try assumption; try reflexivity.
  rewrite Hrun, Hpub. cbn [move_drone_pub].
  rewrite main_prefix_commands. reflexivity.
Qed.

Lemma main_is_not_ready_below_takeoff_altitude_witness :
  node.main autonomy.argv_kp_only [Some 0%Z; None; Some 1299%Z]
            [ {| node.t_x := 1; node.t_yaw := 2; node.t_z := 3;
                 node.data := autonomy.target_at_300 |} ] =
    [node.FlatTrim; node.Takeoff; node.Sleep 3000000; node.CmdVel stop]
      ++ repeat (node.CmdVel climb)
                (length (delivered [Some 0%Z; None; Some 1299%Z])).
Proof.
  apply (main_is_not_ready_below_takeoff_altitude autonomy.argv_kp_only).
  repeat constructor.
Defined.

(** [main] once telemetry delivers an altitude of 1300 or more.  The
    events are, in order: flat trim, takeoff, the sleep of three seconds,
    the hover command, one climb command for every telemetry message up
    to and including the one that reaches 1300, one stop command, the
    ready signal, and then one command for every measurement, built from
    the outputs of the three controllers of [main]. *)
Theorem main_event_order
    (argv : nat -> float) (pre rest : list (option Z)) (final : Z)
    (script : list node.delivery) :
  Forall (below 1300) pre ->
  (1300 <= final)%Z ->
  node.main argv (pre ++ Some final :: rest) script =
    [node.FlatTrim; node.Takeoff; node.Sleep 3000000; node.CmdVel stop]
      ++ repeat (node.CmdVel climb) (length (delivered pre) + 1)
      ++ [node.CmdVel stop; node.Ready true]
      ++ map node.CmdVel
           (node.zip3
              (snd (PID.run_calls
                      (autonomy.main_velocity_PI
                         (argv 5%nat) (argv 6%nat) (argv 7%nat) (argv 8%nat))
                      (node.samples_x script)))
              (snd (PID.run_calls
                      (autonomy.main_yaw_PI
                         (argv 9%nat) (argv 10%nat) (argv 11%nat)
                         (argv 12%nat))
                      (node.samples_yaw script)))
              (snd (PID.run_calls
                      (autonomy.main_altitude_PI
                         (argv 1%nat) (argv 2%nat) (argv 3%nat) (argv 4%nat))
                      (node.samples_z script)))).
Proof.
  intros Hb Hfinal. unfold node.main, node.initialize.
  cbn [autonomy.main_drone autonomy.new autonomy.takeoff_altitude].
  unfold run, new.
  cbn [current_altitude desired_altitude move_drone_pub].
  destruct (spin_loop_reaches pre
              {| current_altitude := 0; desired_altitude := 1300;
                 move_drone_pub := move_drone [] (Fin 0) (Fin 0) (Fin 0);
                 navdata_altitude := true |} final rest)
    as (s' & Hrun & Hc & Hd & Hn & Hpub); try assumption; try reflexivity.
  rewrite Hrun. cbn [move_drone_pub]. rewrite Hpub.
  cbn [move_drone_pub].
  destruct (tracking_spec script (autonomy.main_drone argv))
    as (_ & _ & _ & Htrack).
  cbn [autonomy.main_drone autonomy.new autonomy.move_drone_pub
       autonomy.velocity_PI autonomy.yaw_PI autonomy.alt_PI app] in Htrack.
  rewrite Htrack.
  unfold move_drone at 1. rewrite map_app, main_prefix_commands.
  unfold node.ready. cbn [map app]. rewrite <- !app_assoc. reflexivity.
Qed.

Lemma main_event_order_witness :
  node.main autonomy.argv_kp_only
            ([Some 0%Z; None; Some 700%Z] ++ Some 1300%Z :: [Some 1310%Z])
            [ {| node.t_x := 1; node.t_yaw := 2; node.t_z := 3;
                 node.data := autonomy.target_at_300 |} ] =
    [node.FlatTrim; node.Takeoff; node.Sleep 3000000; node.CmdVel stop]
      ++ repeat (node.CmdVel climb)
                (length (delivered [Some 0%Z; None; Some 700%Z]) + 1)
      ++ [node.CmdVel stop; node.Ready true]
      ++ map node.CmdVel
           (node.zip3
              (snd (PID.run_calls
                      (autonomy.main_velocity_PI
                         (autonomy.argv_kp_only 5%nat)
                         (autonomy.argv_kp_only 6%nat)
                         (autonomy.argv_kp_only 7%nat)
                         (autonomy.argv_kp_only 8%nat))
                      (node.samples_x
                         [ {| node.t_x := 1; node.t_yaw := 2; node.t_z := 3;
                              node.data := autonomy.target_at_300 |} ])))
              (snd (PID.run_calls
                      (autonomy.main_yaw_PI
                         (autonomy.argv_kp_only 9%nat)
                         (autonomy.argv_kp_only 10%nat)
                         (autonomy.argv_kp_only 11%nat)
                         (autonomy.argv_kp_only 12%nat))
                      (node.samples_yaw
                         [ {| node.t_x := 1; node.t_yaw := 2; node.t_z := 3;
                              node.data := autonomy.target_at_300 |} ])))
              (snd (PID.run_calls
                      (autonomy.main_altitude_PI
                         (autonomy.argv_kp_only 1%nat)
                         (autonomy.argv_kp_only 2%nat)
                         (autonomy.argv_kp_only 3%nat)
                         (autonomy.argv_kp_only 4%nat))
                      (node.samples_z
                         [ {| node.t_x := 1; node.t_yaw := 2; node.t_z := 3;
                              node.data := autonomy.target_at_300 |} ])))).
Proof.
  apply (main_event_order autonomy.argv_kp_only
           [Some 0%Z; None; Some 700%Z] [Some 1310%Z] 1300).
  - repeat constructor.
  - lia.
Defined.

End Lifecycle.

(* ================================================================== *)
(** ** The face chosen by imageCb and the offset it publishes           *)
(* ================================================================== *)

Section FaceOffset.

Import simplecanny.
Local Open Scope Z_scope.

Lemma wrap_small (z : Z) :
  -2147483648 <= z < 2147483648 -> wrap z = z.
Proof.
  intro H. unfold wrap. rewrite Z.mod_small; lia.
Qed.

(** Inside the image the value pushed for a face is minus its area:
    the second factor is [ul.y - lr.y], the negated height. *)
Lemma face_area_of_inside (cols rows : Z) (r : Rect) :
  inside cols rows r ->
  face_area_of r = - (width r * height r) /\ face_area_of r <= 0.
Proof.
  intros (Hx & Hy & Hw & Hh & Hxw & Hyh & Hc & Hr).
  unfold face_area_of, iadd, isub, imul. cbv zeta.
  rewrite (wrap_small (x r + width r)) by lia.
  rewrite (wrap_small (y r + height r)) by lia.
  replace (x r + width r - x r) with (width r) by lia.
  replace (y r - (y r + height r)) with (- height r) by lia.
  rewrite (wrap_small (width r)) by lia.
  rewrite (wrap_small (- height r)) by lia.
  assert (Hb : 0 <= width r * height r <= 32768 * 32768) by nia.
  rewrite wrap_small by lia.
  lia.
Qed.

(** With no value above [max], the scan keeps the index it starts with. *)
Lemma scan_keeps_index (areas : list Z) :
  forall (i index : nat) (max : Z),
  Forall (fun a => a <= max) areas ->
  scan areas i index max = index.
Proof.
  induction areas as [| a rest IH]; intros i index max H.
  - reflexivity.
  - inversion H as [| ? ? Ha Hrest]; subst.
    cbn [scan].
    destruct (Z.ltb_spec max a); [lia|].
    now apply IH.
Qed.

(** The face that [imageCb] reports is always the first one detected.
    For faces inside the image every entry of [face_area] is negative or
    zero, no entry exceeds [max], which stays 0, and [index] stays 0:
    the sizes of the faces play no part. *)
Theorem imageCb_reports_the_first_face
    (cols rows : Z) (faces : list Rect) :
  Forall (inside cols rows) faces ->
  select_index (face_area faces) = 0%nat
  /\ imageCb faces cols =
       match faces with
       | [] => None
       | r :: _ => Some (pixels_of r cols)
       end.
Proof.
  intro H.
  assert (Hidx : select_index (face_area faces) = 0%nat).
  { unfold select_index. apply scan_keeps_index.
    unfold face_area. apply Forall_map.
    eapply Forall_impl; [| exact H].
    intros r Hr. now destruct (face_area_of_inside cols rows r Hr). }
  split; [exact Hidx|].
  unfold imageCb. rewrite Hidx. destruct faces; reflexivity.
Qed.

Lemma imageCb_reports_the_first_face_witness :
  select_index
    (face_area [ {| x := 10; y := 10; width := 40; height := 40 |};
                 {| x := 200; y := 50; width := 300; height := 300 |} ])
  = 0%nat
  /\ imageCb [ {| x := 10; y := 10; width := 40; height := 40 |};
               {| x := 200; y := 50; width := 300; height := 300 |} ] 640 =
       Some (pixels_of {| x := 10; y := 10; width := 40; height := 40 |} 640).
Proof.
  apply (imageCb_reports_the_first_face 640 360
           [ {| x := 10; y := 10; width := 40; height := 40 |};
             {| x := 200; y := 50; width := 300; height := 300 |} ]).
  repeat (apply Forall_cons || apply Forall_nil);
    unfold inside; cbn; lia.
Defined.

(** The offset published for a face inside the image: the middle of the
    face (left edge plus right edge, halved) minus half the width of the
    image.  It lies between minus half the width and half the width
    rounded up, and is 0 for a face centred in an image of even width. *)
Theorem pixels_of_is_offset_from_centre (cols rows : Z) (r : Rect) :
  inside cols rows r ->
  pixels_of r cols = (2 * x r + width r) / 2 - cols / 2
  /\ - (cols / 2) <= pixels_of r cols <= cols - cols / 2
  /\ (2 * x r + width r = cols -> pixels_of r cols = 0).
Proof.
  intros (Hx & Hy & Hw & Hh & Hxw & Hyh & Hc & Hr).
  unfold pixels_of, iadd, isub, idiv. cbv zeta.
  rewrite (wrap_small (x r + width r)) by lia.
  rewrite (wrap_small (x r + width r + x r)) by lia.
  rewrite !Z.quot_div_nonneg by lia.
  replace (x r + width r + x r) with (2 * x r + width r) by lia.
  assert (H1 : 0 <= (2 * x r + width r) / 2 <= cols).
  { split; [apply Z.div_pos; lia|].
    apply Z.div_le_upper_bound; lia. }
  assert (H2 : 0 <= cols / 2 <= cols).
  { split; [apply Z.div_pos; lia|].
    apply Z.div_le_upper_bound; lia. }
  rewrite (wrap_small ((2 * x r + width r) / 2)) by lia.
  rewrite (wrap_small (cols / 2)) by lia.
  rewrite wrap_small by lia.
  repeat split; try lia.
  intro E. rewrite E. lia.
Qed.

Lemma pixels_of_is_offset_from_centre_witness :
  let r := {| x := 500; y := 20; width := 101; height := 80 |} in
  pixels_of r 640 = (2 * x r + width r) / 2 - 640 / 2
  /\ - (640 / 2) <= pixels_of r 640 <= 640 - 640 / 2
  /\ (2 * x r + width r = 640 -> pixels_of r 640 = 0).
Proof.
  apply (pixels_of_is_offset_from_centre 640 360
           {| x := 500; y := 20; width := 101; height := 80 |}).
  unfold inside. cbn. lia.
Defined.

Lemma scan_range (areas : list Z) :
  forall (i index : nat) (max : Z),
  scan areas i index max = index
  \/ (i <= scan areas i index max < i + length areas)%nat.
Proof.
  induction areas as [| a rest IH]; intros i index max.
  - left. reflexivity.
  - cbn [scan length].
    destruct (IH (S i) (if max <? a then i else index) max) as [E | E].
    + rewrite E. destruct (max <? a); [right; lia | left; reflexivity].
    + right. lia.
Qed.

(** Whatever the detected rectangles are, sizes that overflow included,
    the index that the second loop leaves is a position of [faces]: the
    access [faces[index]] is never out of bounds. *)
Theorem select_index_in_bounds (faces : list Rect) :
  faces <> [] ->
  (select_index (face_area faces) < length faces)%nat.
Proof.
  intro H. unfold select_index.
  destruct (scan_range (face_area faces) 0 0 0) as [E | E].
  - rewrite E. destruct faces; [contradiction | cbn; lia].
  - unfold face_area in *. rewrite length_map in E. lia.
Qed.

Lemma select_index_in_bounds_witness :
  (select_index
     (face_area [ {| x := 5; y := 90; width := 30; height := -20 |};
                  {| x := 0; y := 0; width := 65536; height := -65536 |} ])
   < length [ {| x := 5; y := 90; width := 30; height := -20 |};
              {| x := 0; y := 0; width := 65536; height := -65536 |} ])%nat.
Proof.
  apply (select_index_in_bounds
           [ {| x := 5; y := 90; width := 30; height := -20 |};
             {| x := 0; y := 0; width := 65536; height := -65536 |} ]).
  intro H. discriminate H.
Defined.

End FaceOffset.
